(** * nc-renamer: the NC1 -> DXF geometry core of [main.py]

    A shallow embedding of the block tokenizer, the curvature-point
    extractor, the bulge engine, the bore classifier / slot synthesizer
    and the drawing assembler of [src/main.py], with the properties the
    specification states about them.

    Numbers.  Python floats are idealised as the real numbers [R]: [+ - * /],
    [abs], [math.hypot], [math.dist], [math.asin] and [math.tan] are their
    exact mathematical counterparts.  The properties that turn on the last
    bits of an arcsine or a tangent are stated over [Libm] instead, where
    the two are arbitrary functions.  What Python reports as an exception
    ([ZeroDivisionError] for [/], [ValueError] for [math.asin] outside
    [-1, 1] and for [float] on a non-number, [IndexError] for a list index
    out of range) is kept, as a value of type [exn].

    Text.  A Python [str] is a Rocq [string]; a character is its code point
    in the range 0..255. *)

From Stdlib Require Import Reals Lra Lia List Bool Arith ZArith String Ascii.
From Stdlib Require Import DecimalString DecimalPos.
Import ListNotations.

(* ================================================================== *)
(** ** Exceptions as values *)

Inductive exn : Type :=
| ZeroDivisionError
| ValueError
| IndexError.

Inductive result (A : Type) : Type :=
| Ok (a : A)
| Raise (e : exn).

Arguments Ok {A} a.
Arguments Raise {A} e.

Definition bind {A B : Type} (m : result A) (k : A -> result B) : result B :=
  match m with
  | Ok a => k a
  | Raise e => Raise e
  end.

Declare Scope py_scope.
Delimit Scope py_scope with py.
Notation "x <- m ;; k" := (bind m (fun x => k))
  (at level 61, m at next level, right associativity) : py_scope.
Notation "' p <- m ;; k" := (bind m (fun x => match x with p => k end))
  (at level 61, p pattern, m at next level, right associativity) : py_scope.

(** [xs[i]] *)
Definition index {A : Type} (xs : list A) (i : nat) : result A :=
  match nth_error xs i with
  | Some a => Ok a
  | None => Raise IndexError
  end.

(* ================================================================== *)
(** ** Float primitives *)

Module Py.

Local Open Scope R_scope.

(** [a < b] and [a > b] as Python booleans. *)
Definition lt (a b : R) : bool := if Rlt_dec a b then true else false.
Definition gt (a b : R) : bool := if Rgt_dec a b then true else false.

(** [min(a, b)]: [a] unless [b < a].  [max(a, b)]: [a] unless [b > a]. *)
Definition min (a b : R) : R := if lt b a then b else a.
Definition max (a b : R) : R := if gt b a then b else a.

(** [a / b] *)
Definition div (a b : R) : result R :=
  if Req_dec_T b 0 then Raise ZeroDivisionError else Ok (a / b).

(** [math.asin(x)] *)
Definition asin (x : R) : result R :=
  if Rlt_dec x (-1) then Raise ValueError
  else if Rlt_dec 1 x then Raise ValueError
  else Ok (Ratan.asin x).

(** [math.tan(x)] *)
Definition tan (x : R) : R := Rtrigo1.tan x.

(** [math.hypot(dx, dy)] *)
Definition hypot (dx dy : R) : R := sqrt (dx * dx + dy * dy).

(** [math.dist(p, q)] for two-dimensional points. *)
Definition dist (p q : R * R) : R :=
  let '(px, py) := p in
  let '(qx, qy) := q in
  sqrt ((px - qx) * (px - qx) + (py - qy) * (py - qy)).

End Py.

(* ================================================================== *)
(** ** Bulge geometry engine *)

Local Open Scope R_scope.
Local Open Scope py_scope.

Definition EPS : R := 1e-9.

(** A curvature point [(x, y, k)] and a polyline vertex [(x, y, bulge)]. *)
Definition point : Type := R * R * R.
Definition vertex : Type := R * R * R.

Definition bulge_from_points_radius (p1 p2 : R * R) (r : R) (ccw : bool)
  : result R :=
  let d := Py.dist p1 p2 in
  if Py.lt r EPS then Ok 0
  else
    q <- Py.div d (2 * r) ;;
    let arg := Py.max (-1) (Py.min 1 q) in
    a <- Py.asin arg ;;
    let theta := 2 * a in
    let b := Py.tan (theta / 4) in
    Ok (if ccw then b else - b).

Section BuildWith.

(** The loop of [build_xyb_from_points], with the function it calls for an
    arc as a parameter, so that its call sites can be talked about. *)
Variable callee : R * R -> R * R -> R -> bool -> result R.

Fixpoint build_loop (pts : list point) (n : nat) (range : list nat)
         (out : list vertex) : result (list vertex) :=
  match range with
  | [] => Ok out
  | i :: range' =>
      '(x, y, k) <- index pts i ;;
      '(x2, y2, _) <- index pts ((i + 1) mod n) ;;
      b <- (if Py.lt (Rabs k) EPS then Ok 0
            else
              let r := Rabs k in
              let ccw := Py.gt k 0 in
              callee (x, y) (x2, y2) r ccw) ;;
      build_loop pts n range' (out ++ [(x, y, b)])
  end.

Definition build_xyb_with (pts : list point) : result (list vertex) :=
  let n := List.length pts in
  if (n <? 2)%nat then Ok []
  else build_loop pts n (seq 0 n) [].

End BuildWith.

Definition build_xyb_from_points : list point -> result (list vertex) :=
  build_xyb_with bulge_from_points_radius.


(* ================================================================== *)
(** ** Text primitives *)

Module Str.

Local Open Scope nat_scope.

Definition code (c : ascii) : nat := nat_of_ascii c.

(** [c.isspace()] for a code point below 256. *)
Definition isspace (c : ascii) : bool :=
  let n := code c in
  ((9 <=? n) && (n <=? 13)) || ((28 <=? n) && (n <=? 32))
  || (n =? 133) || (n =? 160).

(** [[A-Z]] and [\d] (the only decimal digits below 256 are 0-9). *)
Definition isupper_AZ (c : ascii) : bool :=
  let n := code c in (65 <=? n) && (n <=? 90).
Definition isdigit (c : ascii) : bool :=
  let n := code c in (48 <=? n) && (n <=? 57).

(** [c.lower()] for a code point below 256: A-Z and the Latin-1 capitals
    (0xC0-0xDE without the multiplication sign 0xD7) move up by 32. *)
Definition lower_char (c : ascii) : ascii :=
  let n := code c in
  if ((65 <=? n) && (n <=? 90))
     || ((192 <=? n) && (n <=? 222) && negb (n =? 215))
  then ascii_of_nat (n + 32) else c.

Fixpoint lower (s : string) : string :=
  match s with
  | EmptyString => EmptyString
  | String c t => String (lower_char c) (lower t)
  end.

(** [ch in s] for a one-character [ch]. *)
Fixpoint contains (ch : ascii) (s : string) : bool :=
  match s with
  | EmptyString => false
  | String c t => Ascii.eqb c ch || contains ch t
  end.

Fixpoint lstrip (s : string) : string :=
  match s with
  | EmptyString => EmptyString
  | String c t => if isspace c then lstrip t else s
  end.

Fixpoint rstrip (s : string) : string :=
  match s with
  | EmptyString => EmptyString
  | String c t =>
      match rstrip t with
      | EmptyString => if isspace c then EmptyString else String c EmptyString
      | t' => String c t'
      end
  end.

(** [s.strip()] *)
Definition strip (s : string) : string := rstrip (lstrip s).

Fixpoint all_space (s : string) : bool :=
  match s with
  | EmptyString => true
  | String c t => isspace c && all_space t
  end.

(** [s.replace(",", ".")] *)
Fixpoint replace_comma (s : string) : string :=
  match s with
  | EmptyString => EmptyString
  | String c t => String (if Ascii.eqb c ","%char then "."%char else c) (replace_comma t)
  end.

(** Line boundaries of [str.splitlines] below 256: LF, CR, CR LF, VT, FF,
    FS, GS, RS and NEL. *)
Definition is_linebreak (c : ascii) : bool :=
  let n := code c in
  ((10 <=? n) && (n <=? 13)) || ((28 <=? n) && (n <=? 30)) || (n =? 133).

Fixpoint splitlines_from (cur : string) (s : string) : list string :=
  match s with
  | EmptyString =>
      match cur with
      | EmptyString => []
      | _ => [cur]
      end
  | String c t =>
      if is_linebreak c then
        match t with
        | String c' t' =>
            if Ascii.eqb c "013"%char && Ascii.eqb c' "010"%char
            then cur :: splitlines_from EmptyString t'
            else cur :: splitlines_from EmptyString t
        | EmptyString => cur :: splitlines_from EmptyString t
        end
      else splitlines_from (cur ++ String c EmptyString) t
  end.

(** [s.splitlines()] *)
Definition splitlines (s : string) : list string :=
  splitlines_from EmptyString s.

End Str.

(* ================================================================== *)
(** ** Block tokenizer *)

Local Open Scope string_scope.

(** [TAG_RE.fullmatch(s)] for [TAG_RE = ^[A-Z]{2}\s*$]. *)
Definition TAG_RE_fullmatch (s : string) : bool :=
  match s with
  | String a (String b rest) =>
      Str.isupper_AZ a && Str.isupper_AZ b && Str.all_space rest
  | _ => false
  end.

(** A yielded pair [(tag, lines)]. *)
Definition block : Type := string * list string.

(** The statement after the loop of [tokenize_blocks]. *)
Definition tokenize_end (cur_tag : option string) (cur : list string)
  : list block :=
  match cur_tag with
  | Some t => if negb (t =? "EN") then [(t, cur)] else []
  | None => []
  end.

(** The loop of [tokenize_blocks] from the state [(cur_tag, cur)]; the value
    is the sequence of pairs the generator yields from there on. *)
Fixpoint tokenize_loop (lines : list string) (cur_tag : option string)
         (cur : list string) : list block :=
  match lines with
  | [] => tokenize_end cur_tag cur
  | ln :: rest =>
      let s := Str.strip ln in
      if TAG_RE_fullmatch s then
        match cur_tag with
        | Some t =>
            (t, cur) ::
            (if s =? "EN" then tokenize_end (Some s) []
             else tokenize_loop rest (Some s) [])
        | None =>
            if s =? "EN" then tokenize_end (Some s) cur
            else tokenize_loop rest (Some s) cur
        end
      else
        match cur_tag with
        | Some _ => tokenize_loop rest cur_tag (cur ++ [ln])
        | None => tokenize_loop rest cur_tag cur
        end
  end.

Definition tokenize_lines (lines : list string) : list block :=
  tokenize_loop lines None [].

Definition tokenize_blocks (text : string) : list block :=
  tokenize_lines (Str.splitlines text).

(* ================================================================== *)
(** ** Numeric tokens *)

(** The longest prefix of decimal digits, and what follows it. *)
Fixpoint span_digits (s : string) : string * string :=
  match s with
  | EmptyString => (EmptyString, EmptyString)
  | String c t =>
      if Str.isdigit c then
        let '(ds, rest) := span_digits t in (String c ds, rest)
      else (EmptyString, s)
  end.

Definition is_sign (c : ascii) : bool :=
  Ascii.eqb c "+"%char || Ascii.eqb c "-"%char.
Definition is_sep (c : ascii) : bool :=
  Ascii.eqb c "."%char || Ascii.eqb c ","%char.

(** The optional group [(?:[.,]\d+)?] at the head of [s]. *)
Definition match_fraction (s : string) : string * string :=
  match s with
  | String c t =>
      if is_sep c then
        match span_digits t with
        | (EmptyString, _) => (EmptyString, s)
        | (fs, rest) => (String c fs, rest)
        end
      else (EmptyString, s)
  | EmptyString => (EmptyString, s)
  end.

(** [FLOAT_RE = [+-]?\d+(?:[.,]\d+)?] matched at the head of [s]: the
    matched text and the rest.  A sign that no digit follows cannot be
    skipped, since a sign is not a digit. *)
Definition match_FLOAT_RE (s : string) : option (string * string) :=
  let '(sign, s1) :=
    match s with
    | String c t => if is_sign c then (String c EmptyString, t)
                    else (EmptyString, s)
    | EmptyString => (EmptyString, s)
    end in
  match span_digits s1 with
  | (EmptyString, _) => None
  | (ds, s2) =>
      let '(fr, s3) := match_fraction s2 in
      Some (sign ++ ds ++ fr, s3)
  end.

(** The scan of [re.findall]: at each position the match if there is one,
    then on from its end; otherwise one character further. *)
Fixpoint findall_from (fuel : nat) (s : string) : list string :=
  match fuel with
  | O => []
  | S fuel' =>
      match s with
      | EmptyString => []
      | String _ t =>
          match match_FLOAT_RE s with
          | Some (m, rest) => m :: findall_from fuel' rest
          | None => findall_from fuel' t
          end
      end
  end.

(** [re.findall(FLOAT_RE, ln)]; a step consumes at least one character, so
    the length of [ln] is fuel enough. *)
Definition findall_FLOAT_RE (ln : string) : list string :=
  findall_from (String.length ln) ln.

Definition digit_value (c : ascii) : Z := Z.of_nat (Str.code c - 48).

Fixpoint digits_value (acc : Z) (s : string) : Z :=
  match s with
  | EmptyString => acc
  | String c t => digits_value (10 * acc + digit_value c) t
  end.

Fixpoint all_digits (s : string) : bool :=
  match s with
  | EmptyString => true
  | String c t => Str.isdigit c && all_digits t
  end.

(** The reading of a decimal literal [[+-]digits[.digits]]: whether it is
    negative, and its value as a fraction [num / den] with [den] a power of
    ten. *)
Definition decimal_of_str (s : string) : option (bool * Z * Z) :=
  let '(neg, body) :=
    match s with
    | String c t =>
        if Ascii.eqb c "-"%char then (true, t)
        else if Ascii.eqb c "+"%char then (false, t)
        else (false, s)
    | EmptyString => (false, s)
    end in
  match span_digits body with
  | (EmptyString, _) => None
  | (ip, EmptyString) => Some (neg, digits_value 0 ip, 1%Z)
  | (ip, String c fp) =>
      if Ascii.eqb c "."%char && negb (fp =? "") && all_digits fp
      then Some (neg, digits_value 0 (ip ++ fp),
                 (10 ^ Z.of_nat (String.length fp))%Z)
      else None
  end.

Definition decimal_value (d : bool * Z * Z) : R :=
  let '(neg, num, den) := d in
  let v := (IZR num / IZR den)%R in
  if neg then (- v)%R else v.

(** [float(s)] on a decimal literal.  The other forms [float] accepts
    (exponents, [inf], [nan], padding, underscores) are not among the
    strings [FLOAT_RE] matches; they are reported as [ValueError] here. *)
Definition float_of_str (s : string) : result R :=
  match decimal_of_str s with
  | Some d => Ok (decimal_value d)
  | None => Raise ValueError
  end.

Definition fnum (s : string) : result R :=
  float_of_str (Str.replace_comma s).

(* ================================================================== *)
(** ** Curvature-point extractor *)

Fixpoint parse_points_loop (block_lines : list string) (pts : list point)
  : result (list point) :=
  match block_lines with
  | [] => Ok pts
  | ln :: rest =>
      let nums := findall_FLOAT_RE ln in
      if (2 <=? List.length nums)%nat then
        sx <- index nums 0 ;; x <- fnum sx ;;
        sy <- index nums 1 ;; y <- fnum sy ;;
        k <- (if (3 <=? List.length nums)%nat
              then sk <- index nums 2 ;; fnum sk
              else Ok 0%R) ;;
        parse_points_loop rest (pts ++ [(x, y, k)])
      else parse_points_loop rest pts
  end.

Definition parse_points_k (block_lines : list string) : result (list point) :=
  parse_points_loop block_lines [].

(* ================================================================== *)
(** ** Drawing primitives and the model space *)

(** What [msp.add_lwpolyline(verts, format="xyb", close=True, layer)] and
    [msp.add_circle(center, r, layer)] create. *)
Inductive entity : Type :=
| LWPolyline (layer : string) (verts : list vertex)
| Circle (layer : string) (center : R * R) (radius : R).

(** The model space: the entities added so far, oldest first. *)
Definition modelspace : Type := list entity.

Definition add_lwpolyline (msp : modelspace) (verts : list vertex)
           (layer : string) : modelspace :=
  (msp ++ [LWPolyline layer verts])%list.

Definition add_circle (msp : modelspace) (center : R * R) (r : R)
           (layer : string) : modelspace :=
  (msp ++ [Circle layer center r])%list.

(* ================================================================== *)
(** ** Slot synthesizer *)

Local Open Scope R_scope.

Definition add_slot_capsule (msp : modelspace) (c1 c2 : R * R) (dia : R)
           (layer : string) : result modelspace :=
  let '(x1, y1) := c1 in
  let '(x2, y2) := c2 in
  r <- Py.div dia 2 ;;
  let '(dx, dy) := (x2 - x1, y2 - y1) in
  let L := Py.hypot dx dy in
  if Py.lt L EPS then
    Ok (if Py.gt r 0 then add_circle msp (x1, y1) r layer else msp)
  else
    nx <- Py.div (- dy) L ;;
    ny <- Py.div dx L ;;
    let P0 := (x1 - nx * r, y1 - ny * r) in
    let P1 := (x2 - nx * r, y2 - ny * r) in
    let P2 := (x2 + nx * r, y2 + ny * r) in
    let P3 := (x1 + nx * r, y1 + ny * r) in
    let verts_xyb :=
      [ (fst P0, snd P0, 0);
        (fst P1, snd P1, 1);
        (fst P2, snd P2, 0);
        (fst P3, snd P3, 1) ] in
    Ok (add_lwpolyline msp verts_xyb layer).

(* ================================================================== *)
(** ** Bore classifier and drawing assembler *)

(** The tuples [("circle", (x, y), None, dia)] and
    [("slot", c1, c2, dia)] appended to [bo_items]. *)
Inductive bo_item : Type :=
| BoCircle (center : R * R) (dia : R)
| BoSlot (c1 c2 : R * R) (dia : R).

(** The body of the loop over the lines of a BO block: the item the line
    appends to [bo_items], if any. *)
Definition classify_bo_line (ln : string) : result (option bo_item) :=
  let nums := findall_FLOAT_RE ln in
  let is_slot := Str.contains "l"%char (Str.lower ln) in
  if is_slot && (6 <=? List.length nums)%nat then
    sx <- index nums 0 ;; x <- fnum sx ;;
    sy <- index nums 1 ;; y <- fnum sy ;;
    sd <- index nums 2 ;; dia <- fnum sd ;;
    sdx <- index nums 4 ;; dx <- fnum sdx ;;
    sdy <- index nums 5 ;; dy <- fnum sdy ;;
    let c1 := (x, y) in
    let c2 := (x + dx, y + dy) in
    Ok (Some (BoSlot c1 c2 dia))
  else if (3 <=? List.length nums)%nat then
    sx <- index nums 0 ;; x <- fnum sx ;;
    sy <- index nums 1 ;; y <- fnum sy ;;
    sd <- index nums 2 ;; dia <- fnum sd ;;
    Ok (Some (BoCircle (x, y) dia))
  else Ok None.

Fixpoint bo_lines_loop (lines : list string) (bo_items : list bo_item)
  : result (list bo_item) :=
  match lines with
  | [] => Ok bo_items
  | ln :: rest =>
      item <- classify_bo_line ln ;;
      bo_lines_loop rest
        (match item with
         | Some it => (bo_items ++ [it])%list
         | None => bo_items
         end)
  end.

(** The three variables the first loop of [generate_dxf_from_nc_text]
    fills. *)
Record collected : Type := Collected {
  outer_pts : option (list point);
  inner_contours : list (list point);
  bo_items : list bo_item
}.

Definition collect_init : collected := Collected None [] [].

Local Open Scope string_scope.

Fixpoint collect_loop (blocks : list block) (st : collected)
  : result collected :=
  match blocks with
  | [] => Ok st
  | (tag, lines) :: rest =>
      if tag =? "AK" then
        pts <- parse_points_k lines ;;
        collect_loop rest
          (Collected (Some pts) (inner_contours st) (bo_items st))
      else if tag =? "IK" then
        pts <- parse_points_k lines ;;
        collect_loop rest
          (match pts with
           | [] => st
           | _ => Collected (outer_pts st) (inner_contours st ++ [pts])%list
                            (bo_items st)
           end)
      else if tag =? "BO" then
        items <- bo_lines_loop lines (bo_items st) ;;
        collect_loop rest
          (Collected (outer_pts st) (inner_contours st) items)
      else collect_loop rest st
  end.

(** The section [# OUTER]. *)
Definition emit_outer (msp : modelspace) (outer : option (list point))
  : result modelspace :=
  match outer with
  | None | Some [] => Ok msp
  | Some pts =>
      verts <- build_xyb_from_points pts ;;
      Ok (match verts with
          | [] => msp
          | _ => add_lwpolyline msp verts "OUTER"
          end)
  end.

(** The loop [# IK]. *)
Fixpoint emit_inner (msp : modelspace) (contours : list (list point))
  : result modelspace :=
  match contours with
  | [] => Ok msp
  | pts :: rest =>
      iverts <- build_xyb_from_points pts ;;
      emit_inner (match iverts with
                  | [] => msp
                  | _ => add_lwpolyline msp iverts "cutout"
                  end) rest
  end.

(** The body of the loop [# BO]. *)
Definition emit_bo_item (msp : modelspace) (item : bo_item)
  : result modelspace :=
  match item with
  | BoCircle (x, y) dia =>
      r <- Py.div dia 2 ;;
      Ok (if Py.gt r 0 then add_circle msp (x, y) r "cutout" else msp)
  | BoSlot c1 c2 dia => add_slot_capsule msp c1 c2 dia "cutout"
  end.

Fixpoint emit_bo (msp : modelspace) (items : list bo_item)
  : result modelspace :=
  match items with
  | [] => Ok msp
  | item :: rest => msp' <- emit_bo_item msp item ;; emit_bo msp' rest
  end.

(** The geometry of [generate_dxf_from_nc_text] from the yielded blocks on:
    the entities in the model space when the document is saved.  Layer
    set-up, document metadata and the file write are left out. *)
Definition generate_from_blocks (blocks : list block) : result modelspace :=
  st <- collect_loop blocks collect_init ;;
  msp1 <- emit_outer [] (outer_pts st) ;;
  msp2 <- emit_inner msp1 (inner_contours st) ;;
  emit_bo msp2 (bo_items st).

Definition generate_dxf_from_nc_text (txt : string) : result modelspace :=
  generate_from_blocks (tokenize_blocks txt).

(** The entities of a model space that lie on a layer. *)
Definition entity_layer (e : entity) : string :=
  match e with
  | LWPolyline layer _ => layer
  | Circle layer _ _ => layer
  end.

Definition on_layer (layer : string) (msp : modelspace) : modelspace :=
  filter (fun e => entity_layer e =? layer) msp.

(* ================================================================== *)
(** ** The specification's vocabulary *)

Local Open Scope R_scope.

(** [clamp(v, lo, hi)] *)
Definition clamp (v lo hi : R) : R :=
  if Rlt_dec v lo then lo else if Rlt_dec hi v then hi else v.

(** The Euclidean distance between two points. *)
Definition distance (p q : R * R) : R :=
  sqrt ((fst q - fst p) ^ 2 + (snd q - snd p) ^ 2).

(** The included angle [theta = 2 * asin(clamp(d / (2 |k|), -1, 1))]. *)
Definition included_angle (d k : R) : R :=
  2 * Ratan.asin (clamp (d / (2 * Rabs k)) (-1) 1).

(** The bulge the specification gives to the edge that leaves [(p, k)]
    towards [q]. *)
Definition bulge_spec (p q : R * R) (k : R) : R :=
  if Rlt_dec (Rabs k) EPS then 0
  else
    let theta := included_angle (distance p q) k in
    if Rlt_dec 0 k then Rtrigo1.tan (theta / 4)
    else - Rtrigo1.tan (theta / 4).

Definition xy (v : R * R * R) : R * R := (fst (fst v), snd (fst v)).
Definition third (v : R * R * R) : R := snd v.

(** The vertex the specification gives to point [i] of a contour: the
    point's own coordinates and the bulge towards point [i + 1] modulo the
    number of points. *)
Definition vertex_spec (pts : list point) (i : nat) : vertex :=
  let n := List.length pts in
  let p := nth i pts (0, 0, 0) in
  let q := nth ((i + 1) mod n) pts (0, 0, 0) in
  (fst (xy p), snd (xy p), bulge_spec (xy p) (xy q) (third p)).

(** A callee that refuses a radius below [EPS]: the loop run with it fails
    as soon as one call passes such a radius. *)
Definition radius_checked (f : R * R -> R * R -> R -> bool -> result R)
           (p1 p2 : R * R) (r : R) (ccw : bool) : result R :=
  if Rlt_dec r EPS then Raise ValueError else f p1 p2 r ccw.

(** [bulge_from_points_radius] without its [if r < EPS: return 0.0]. *)
Definition bulge_without_fallback (p1 p2 : R * R) (r : R) (ccw : bool)
  : result R :=
  let d := Py.dist p1 p2 in
  q <- Py.div d (2 * r) ;;
  let arg := Py.max (-1) (Py.min 1 q) in
  a <- Py.asin arg ;;
  let theta := 2 * a in
  let b := Py.tan (theta / 4) in
  Ok (if ccw then b else - b).

(** The vertex the loop of [build_xyb_from_points] builds at index [i] when
    its callee returns [g p q r ccw]. *)
Definition vertex_with (g : R * R -> R * R -> R -> bool -> R)
           (pts : list point) (i : nat) : vertex :=
  let n := List.length pts in
  let p := nth i pts (0, 0, 0) in
  let q := nth ((i + 1) mod n) pts (0, 0, 0) in
  (fst (xy p), snd (xy p),
   if Rlt_dec (Rabs (third p)) EPS then 0
   else g (xy p) (xy q) (Rabs (third p)) (Py.gt (third p) 0)).

(** What [bulge_from_points_radius] returns for a radius of at least
    [EPS]. *)
Definition arc_bulge (p1 p2 : R * R) (r : R) (ccw : bool) : R :=
  let b := Rtrigo1.tan
             (2 * Ratan.asin (clamp (distance p1 p2 / (2 * r)) (-1) 1) / 4) in
  if ccw then b else - b.

(** The closed quad of the specification's first end-to-end example. *)
Definition quad : list point :=
  [(0, 0, 0); (10, 0, 5); (10, 10, 0); (0, 10, -5)].

(** The sign law as the specification words it, for a contour [pts]: at
    every index, [k > 0] gives a positive bulge, [k < 0] a negative one,
    and [|k| < 1e-9] or [k == 0] the bulge 0. *)
Definition sign_law (pts : list point) : Prop :=
  forall out, build_xyb_from_points pts = Ok out ->
  forall i, (i < List.length pts)%nat ->
    let k := third (nth i pts (0, 0, 0)) in
    let b := third (nth i out (0, 0, 0)) in
    (k > 0 -> b > 0) /\ (k < 0 -> b < 0) /\
    (Rabs k < EPS \/ k = 0 -> b = 0).

(** A contour whose first point has [k = 5] and coincides with the next. *)
Definition coincident_pair : list point := [(0, 0, 5); (0, 0, 0)].

(** Where [span_digits] stops: at the end or before a non-digit. *)
Definition stops (rest : string) : Prop :=
  match rest with
  | EmptyString => True
  | String c _ => Str.isdigit c = false
  end.

(** The value [fnum] returns for a token, 0 if it raised. *)
Definition token_value (tok : string) : R :=
  match fnum tok with
  | Ok v => v
  | Raise _ => 0
  end.

(** [numbers[i]] of the specification: the values of the numeric tokens of
    a line, in order. *)
Definition numbers (ln : string) : list R :=
  map token_value (findall_FLOAT_RE ln).

Definition number (ln : string) (i : nat) : R := nth i (numbers ln) 0.

(** The classification of a BO line in the specification's words, with the
    letter test left open: a slot when the line has the letter and at least
    six numbers, else a hole when it has at least three, else nothing. *)
Definition classify_spec (has_letter : bool) (ln : string) : option bo_item :=
  if has_letter && (6 <=? List.length (numbers ln))%nat then
    Some (BoSlot (number ln 0, number ln 1)
                 (number ln 0 + number ln 4, number ln 1 + number ln 5)
                 (number ln 2))
  else if (3 <=? List.length (numbers ln))%nat then
    Some (BoCircle (number ln 0, number ln 1) (number ln 2))
  else None.

(** The letter test as the specification states it (the literal letter
    [l]) and as the code makes it (on the lowercased line). *)
Definition classify_as_stated (ln : string) : option bo_item :=
  classify_spec (Str.contains "l"%char ln) ln.

Definition classify_either_case (ln : string) : option bo_item :=
  classify_spec (Str.contains "l"%char ln || Str.contains "L"%char ln) ln.

(** The capsule outline the specification gives to a slot: with the unit
    axis [(vx, vy) = (c2 - c1) / L] and the normal [(nx, ny) = (-vy, vx)],
    the vertices [c1 - r n], [c2 - r n], [c2 + r n], [c1 + r n] with the
    bulges 0, 1, 0, 1. *)
Definition slot_outline (c1 c2 : R * R) (dia : R) : list vertex :=
  let r := dia / 2 in
  let L := distance c1 c2 in
  let vx := (fst c2 - fst c1) / L in
  let vy := (snd c2 - snd c1) / L in
  let nx := - vy in
  let ny := vx in
  [ (fst c1 - r * nx, snd c1 - r * ny, 0);
    (fst c2 - r * nx, snd c2 - r * ny, 1);
    (fst c2 + r * nx, snd c2 + r * ny, 0);
    (fst c1 + r * nx, snd c1 + r * ny, 1) ].


(** A line that opens a block, and one that opens the block "EN". *)
Definition is_tag_line (ln : string) : bool :=
  TAG_RE_fullmatch (Str.strip ln).

Definition is_EN_line (ln : string) : bool :=
  is_tag_line ln && (Str.strip ln =? "EN")%string.

(** The lines before the first tag line: those the tokenizer discards. *)
Fixpoint pre_tag_lines (lines : list string) : list string :=
  match lines with
  | [] => []
  | ln :: rest => if is_tag_line ln then [] else ln :: pre_tag_lines rest
  end.

(** The input lines that precede the "EN" tag line; all of them when there
    is none. *)
Fixpoint before_EN (lines : list string) : list string :=
  match lines with
  | [] => []
  | ln :: rest => if is_EN_line ln then [] else ln :: before_EN rest
  end.

(** A tag line as the tokenizer keeps it (trimmed); any other line as it
    is. *)
Definition as_kept (ln : string) : string :=
  if is_tag_line ln then Str.strip ln else ln.

(** A block written back as lines: its tag, then its lines. *)
Definition block_text (b : block) : list string := fst b :: snd b.

(** The point a line of an AK or IK block contributes, if any. *)
Definition point_of_line (ln : string) : list point :=
  if (2 <=? List.length (numbers ln))%nat then
    [(number ln 0, number ln 1,
      if (3 <=? List.length (numbers ln))%nat then number ln 2 else 0)]
  else [].

Definition points_of_lines (block_lines : list string) : list point :=
  flat_map point_of_line block_lines.

(** The vertices of a contour; none below two points. *)
Definition vertices (pts : list point) : list vertex :=
  if (List.length pts <? 2)%nat then []
  else map (vertex_spec pts) (seq 0 (List.length pts)).

(** The entities a contour, a bore item and the collected data give. *)
Definition contour_entities (layer : string) (pts : list point)
  : list entity :=
  match vertices pts with
  | [] => []
  | verts => [LWPolyline layer verts]
  end.

Definition bo_entities (item : bo_item) : list entity :=
  match item with
  | BoCircle c dia =>
      if Rlt_dec 0 dia then [Circle "cutout" c (dia / 2)] else []
  | BoSlot c1 c2 dia =>
      if Rlt_dec (distance c1 c2) EPS then
        if Rlt_dec 0 dia then [Circle "cutout" c1 (dia / 2)] else []
      else [LWPolyline "cutout" (slot_outline c1 c2 dia)]
  end.

Definition drawing_of (st : collected) : list entity :=
  (match outer_pts st with
   | Some pts => contour_entities "OUTER" pts
   | None => []
   end
   ++ flat_map (contour_entities "cutout") (inner_contours st)
   ++ flat_map bo_entities (bo_items st))%list.

(** What the first loop of [generate_dxf_from_nc_text] collects. *)
Definition collect_block (st : collected) (b : block) : collected :=
  let '(tag, lines) := b in
  if (tag =? "AK")%string then
    Collected (Some (points_of_lines lines)) (inner_contours st) (bo_items st)
  else if (tag =? "IK")%string then
    match points_of_lines lines with
    | [] => st
    | pts => Collected (outer_pts st) (inner_contours st ++ [pts])%list
                       (bo_items st)
    end
  else if (tag =? "BO")%string then
    Collected (outer_pts st) (inner_contours st)
              (bo_items st
               ++ flat_map (fun ln => match classify_either_case ln with
                                      | Some it => [it]
                                      | None => []
                                      end) lines)%list
  else st.

Definition collect (blocks : list block) : collected :=
  fold_left collect_block blocks collect_init.

Definition is_AK (b : block) : bool := (fst b =? "AK")%string.

(** What the collected data holds besides the outer contour. *)
Definition cutouts_of (st : collected) : list (list point) * list bo_item :=
  (inner_contours st, bo_items st).

(** A text with two AK blocks: a two-point contour, then the quad. *)
Definition LF : string := String "010" "".

Definition two_AK_text : string :=
  ("AK" ++ LF ++ "0 0" ++ LF ++ "5 5" ++ LF ++
   "AK" ++ LF ++ "0 0 0" ++ LF ++ "10 0 5" ++ LF ++ "10 10 0" ++ LF ++
   "0 10 -5" ++ LF ++ "EN" ++ LF)%string.

(* ================================================================== *)
(** ** The helper scripts under [Pomocnicze] *)

Module Pomocnicze.

Local Open Scope R_scope.
Local Open Scope py_scope.

(** [bulge_from_points_radius] of [Pomocnicze/bulge.py]: no radius test
    and no clamping before the arcsine. *)
Definition bulge_from_points_radius (p1 p2 : R * R) (r : R) (ccw : bool)
  : result R :=
  let d := Py.dist p1 p2 in
  q <- Py.div d (2 * r) ;;
  a <- Py.asin q ;;
  let theta := 2 * a in
  let bulge := Py.tan (theta / 4) in
  Ok (if ccw then bulge else - bulge).

(** [add_slot_capsule] of [Pomocnicze/ncTodxf.py] and
    [Pomocnicze/nc1_to_dxf.py]: the unit axis first, the normal from it. *)
Definition add_slot_capsule (msp : modelspace) (c1 c2 : R * R) (dia : R)
           (layer : string) : result modelspace :=
  let '(x1, y1) := c1 in
  let '(x2, y2) := c2 in
  r <- Py.div dia 2 ;;
  let '(dx, dy) := (x2 - x1, y2 - y1) in
  let L := Py.hypot dx dy in
  if Py.lt L EPS then
    Ok (if Py.gt r 0 then add_circle msp (x1, y1) r layer else msp)
  else
    vx <- Py.div dx L ;;
    vy <- Py.div dy L ;;
    let '(nx, ny) := (- vy, vx) in
    let P0 := (x1 - nx * r, y1 - ny * r) in
    let P1 := (x2 - nx * r, y2 - ny * r) in
    let P2 := (x2 + nx * r, y2 + ny * r) in
    let P3 := (x1 + nx * r, y1 + ny * r) in
    let verts_xyb :=
      [ (fst P0, snd P0, 0);
        (fst P1, snd P1, 1);
        (fst P2, snd P2, 0);
        (fst P3, snd P3, 1) ] in
    Ok (add_lwpolyline msp verts_xyb layer).

End Pomocnicze.

(** ** Transformations of contours *)

(** The contour run the other way round in curvature: every [k] negated;
    on vertices, every bulge negated. *)
Definition mirror (v : R * R * R) : R * R * R :=
  (fst (fst v), snd (fst v), - snd v).



(** What every entity of a drawing satisfies: a circle lies on "cutout"
    and has a positive radius; a polyline lies on "OUTER" or "cutout" and
    has at least two vertices. *)
Definition entity_ok (e : entity) : Prop :=
  match e with
  | Circle layer _ r => layer = "cutout"%string /\ 0 < r
  | LWPolyline layer verts =>
      (layer = "OUTER"%string \/ layer = "cutout"%string) /\
      (2 <= List.length verts)%nat
  end.


(* ================================================================== *)
(** ** File names *)

(** The character class of the pattern of [sanitize]: backslash, slash,
    colon, star, question mark, double quote, angle brackets, bar, CR and
    LF. *)
Definition forbidden (c : ascii) : bool :=
  let n := Str.code c in
  ((n =? 92) || (n =? 47) || (n =? 58) || (n =? 42) || (n =? 63)
   || (n =? 34) || (n =? 60) || (n =? 62) || (n =? 124)
   || (n =? 13) || (n =? 10))%nat.

(** [re.sub(r'[...]+', "_", s)]: every maximal run of characters of the
    class becomes one underscore.  [in_run] tells that the character
    before was of the class. *)
Fixpoint sub_forbidden (in_run : bool) (s : string) : string :=
  match s with
  | EmptyString => EmptyString
  | String c t =>
      if forbidden c then
        if in_run then sub_forbidden true t
        else String "_"%char (sub_forbidden true t)
      else String c (sub_forbidden false t)
  end.

Definition sanitize (text : string) : string :=
  if (text =? "")%string then "NA"%string
  else sub_forbidden false (Str.strip text).

Definition TARGET_EXT : string := ".nc1".

(** The file name [main] makes of the four parts:
    [sanitize(f"{grade}-{thickness}-({name})-{qty}") + TARGET_EXT]. *)
Definition new_name (grade thickness name qty : string) : string :=
  (sanitize (grade ++ "-" ++ thickness ++ "-(" ++ name ++ ")-" ++ qty)
   ++ TARGET_EXT)%string.

Fixpoint no_forbidden (s : string) : bool :=
  match s with
  | EmptyString => true
  | String c t => negb (forbidden c) && no_forbidden t
  end.


(* ================================================================== *)
(** ** Header fields *)

(** The code points of [c.upper()] for a code point below 256: the
    small letters move down by 32, the micro sign becomes the Greek capital
    mu (924), the sharp s two capital S, and y with diaeresis the code
    point 376. *)
Definition upper_char (c : ascii) : list nat :=
  let n := Str.code c in
  if ((97 <=? n) && (n <=? 122))%nat then [n - 32]%nat
  else if (n =? 181)%nat then [924]%nat
  else if (n =? 223)%nat then [83; 83]%nat
  else if ((224 <=? n) && (n <=? 254) && negb (n =? 247))%nat
       then [n - 32]%nat
  else if (n =? 255)%nat then [376]%nat
  else [n].

Fixpoint upper (s : string) : list nat :=
  match s with
  | EmptyString => []
  | String c t => (upper_char c ++ upper t)%list
  end.

Fixpoint codes (s : string) : list nat :=
  match s with
  | EmptyString => []
  | String c t => Str.code c :: codes t
  end.

(** [ln.strip().upper() == target] *)
Definition stripped_upper_is (target : string) (ln : string) : bool :=
  if list_eq_dec Nat.eq_dec (upper (Str.strip ln)) (codes target)
  then true else false.

(** [next(i for i, ln in enumerate(lines) if p(ln))], counting from [i];
    [None] for [StopIteration]. *)
Fixpoint first_index (p : string -> bool) (lines : list string) (i : nat)
  : option nat :=
  match lines with
  | [] => None
  | ln :: rest => if p ln then Some i else first_index p rest (S i)
  end.

(** The [try ... except StopIteration: ... = -1] around it. *)
Definition index_or_minus_one (p : string -> bool) (lines : list string) : Z :=
  match first_index p lines 0 with
  | Some i => Z.of_nat i
  | None => (-1)%Z
  end.

(** The loop of [parse_header_fields] over [src[:30]]. *)
Fixpoint header_loop (src : list string) (seq : list string) : list string :=
  match src with
  | [] => seq
  | ln :: rest =>
      let s := Str.strip ln in
      if (s =? "")%string || String.prefix "**" s then header_loop rest seq
      else
        let seq' := (seq ++ [s])%list in
        if (9 <=? List.length seq')%nat then seq' else header_loop rest seq'
  end.

(** [seq[i] if len(seq) > i else ""] *)
Definition item_or_empty (seq : list string) (i : nat) : string :=
  if (i <? List.length seq)%nat then nth i seq ""%string else ""%string.

Record header : Type := Header {
  piece : string;
  assembly : string;
  grade : string;
  qty : string;
  profile : string;
  type_code : string;
  b_idx : Z
}.

Definition header_window (lines : list string) : list string :=
  let st_idx := index_or_minus_one (stripped_upper_is "ST") lines in
  let src := if (0 <=? st_idx)%Z then skipn (Z.to_nat (st_idx + 1)) lines
             else lines in
  firstn 30 src.

Definition parse_header_fields (lines : list string) : header :=
  let seq := header_loop (header_window lines) [] in
  Header (item_or_empty seq 2) (item_or_empty seq 3) (item_or_empty seq 4)
         (item_or_empty seq 5) (item_or_empty seq 6) (item_or_empty seq 1)
         (index_or_minus_one (stripped_upper_is "B") lines).

(** What a header field is when it is not empty: the trimmed form of a
    line of the file, not blank and not a comment. *)
Definition header_line (lines : list string) (s : string) : Prop :=
  s <> ""%string /\ String.prefix "**" s = false /\
  exists ln, In ln lines /\ s = Str.strip ln.

Definition header_fields (h : header) : list string :=
  [piece h; assembly h; grade h; qty h; profile h; type_code h].


(* ================================================================== *)
(** ** Quantity *)

(** The digits of a decimal integer literal, with single underscores
    allowed between digits; [after_digit] tells that the character before
    was a digit. *)
Fixpoint int_digits (s : string) (acc : Z) (after_digit : bool) : option Z :=
  match s with
  | EmptyString => if after_digit then Some acc else None
  | String c t =>
      if Str.isdigit c then int_digits t (10 * acc + digit_value c)%Z true
      else if Ascii.eqb c "_"%char && after_digit then int_digits t acc false
      else None
  end.

(** [int(s)] for a text with code points below 256: white space around,
    an optional sign, digits.  [None] for [ValueError]. *)
Definition int_of_str (s : string) : option Z :=
  match Str.strip s with
  | EmptyString => None
  | String c t =>
      if Ascii.eqb c "-"%char then option_map Z.opp (int_digits t 0 false)
      else if Ascii.eqb c "+"%char then int_digits t 0 false
      else int_digits (String c t) 0 false
  end.

(** [str(q)] for an integer. *)
Definition str_of_int (q : Z) : string :=
  DecimalString.NilZero.string_of_int (Z.to_int q).

Definition pick_qty_simple (qty_str : string) : string :=
  match int_of_str (Str.strip qty_str) with
  | Some q => str_of_int (if (q >? 0)%Z then q else 1%Z)
  | None => "1"%string
  end.

(** The number a string of decimal digits stands for, after [acc]. *)
Fixpoint uint_value (d : Decimal.uint) (acc : Z) : Z :=
  match d with
  | Decimal.Nil => acc
  | Decimal.D0 l => uint_value l (10 * acc + 0)
  | Decimal.D1 l => uint_value l (10 * acc + 1)
  | Decimal.D2 l => uint_value l (10 * acc + 2)
  | Decimal.D3 l => uint_value l (10 * acc + 3)
  | Decimal.D4 l => uint_value l (10 * acc + 4)
  | Decimal.D5 l => uint_value l (10 * acc + 5)
  | Decimal.D6 l => uint_value l (10 * acc + 6)
  | Decimal.D7 l => uint_value l (10 * acc + 7)
  | Decimal.D8 l => uint_value l (10 * acc + 8)
  | Decimal.D9 l => uint_value l (10 * acc + 9)
  end%Z.


(** ** Texts made of lines *)

Definition CRLF : string := String "013" (String "010" "").

(** The text whose lines are [lines], each ended by [sep]. *)
Fixpoint terminated (sep : string) (lines : list string) : string :=
  match lines with
  | [] => ""%string
  | l :: rest => (l ++ sep ++ terminated sep rest)%string
  end.

Fixpoint no_linebreak (s : string) : bool :=
  match s with
  | EmptyString => true
  | String c t => negb (Str.is_linebreak c) && no_linebreak t
  end.

Fixpoint has_digit (s : string) : bool :=
  match s with
  | EmptyString => false
  | String c t => Str.isdigit c || has_digit t
  end.


(* ================================================================== *)
(** ** The engine over the C library's arcsine and tangent *)

(** [math.asin] and [math.tan] hand the work to the C library and return
    its binary64 results: the exact values rounded.  Where a property
    turns on those last bits, the engine is read over any two functions
    [lib_asin] and [lib_tan] in their place; the rest is as above. *)
Module Libm.
Section Functions.

Local Open Scope R_scope.
Local Open Scope py_scope.

Variables lib_asin lib_tan : R -> R.

(** [math.asin(x)] *)
Definition asin (x : R) : result R :=
  if Rlt_dec x (-1) then Raise ValueError
  else if Rlt_dec 1 x then Raise ValueError
  else Ok (lib_asin x).

(** [math.tan(x)] *)
Definition tan (x : R) : R := lib_tan x.

Definition bulge_from_points_radius (p1 p2 : R * R) (r : R) (ccw : bool)
  : result R :=
  let d := Py.dist p1 p2 in
  if Py.lt r EPS then Ok 0
  else
    q <- Py.div d (2 * r) ;;
    let arg := Py.max (-1) (Py.min 1 q) in
    a <- asin arg ;;
    let theta := 2 * a in
    let b := tan (theta / 4) in
    Ok (if ccw then b else - b).

Definition build_xyb_from_points : list point -> result (list vertex) :=
  build_xyb_with bulge_from_points_radius.

(** The specification's formula, with the library's functions:
    [theta = 2 asin(clamp(d / (2 |k|), -1, 1))] and the bulge
    [tan(theta / 4)], signed by [k]. *)
Definition included_angle (d k : R) : R :=
  2 * lib_asin (clamp (d / (2 * Rabs k)) (-1) 1).

Definition bulge_spec (p q : R * R) (k : R) : R :=
  if Rlt_dec (Rabs k) EPS then 0
  else
    let theta := included_angle (distance p q) k in
    if Rlt_dec 0 k then lib_tan (theta / 4)
    else - lib_tan (theta / 4).

(** What [bulge_from_points_radius] returns for a radius of at least
    [EPS]. *)
Definition arc_bulge (p1 p2 : R * R) (r : R) (ccw : bool) : R :=
  let b := lib_tan (2 * lib_asin (clamp (distance p1 p2 / (2 * r)) (-1) 1) / 4)
  in if ccw then b else - b.


End Functions.
End Libm.




(* ================================================================== *)
(** * Properties *)

(** ** Float primitives *)

Lemma EPS_pos : 0 < EPS.
Proof. unfold EPS. lra. Qed.

Lemma lt_true (a b : R) : a < b -> Py.lt a b = true.
Proof. intros H. unfold Py.lt. destruct (Rlt_dec a b); [reflexivity | contradiction]. Qed.

Lemma lt_false (a b : R) : b <= a -> Py.lt a b = false.
Proof. intros H. unfold Py.lt. destruct (Rlt_dec a b); [lra | reflexivity]. Qed.

Lemma gt_true (a b : R) : b < a -> Py.gt a b = true.
Proof. intros H. unfold Py.gt. destruct (Rgt_dec a b); [reflexivity | lra]. Qed.

Lemma gt_false (a b : R) : a <= b -> Py.gt a b = false.
Proof. intros H. unfold Py.gt. destruct (Rgt_dec a b); [lra | reflexivity]. Qed.

Lemma clamp_max_min (v : R) : Py.max (-1) (Py.min 1 v) = clamp v (-1) 1.
Proof.
  unfold Py.max, Py.min, Py.gt, Py.lt, clamp.
  destruct (Rlt_dec v 1), (Rlt_dec v (-1)), (Rlt_dec 1 v);
    try lra; repeat (destruct (Rgt_dec _ _)); lra.
Qed.

Lemma clamp_bounds (v : R) : -1 <= clamp v (-1) 1 <= 1.
Proof.
  unfold clamp. destruct (Rlt_dec v (-1)); [lra |].
  destruct (Rlt_dec 1 v); lra.
Qed.

Lemma asin_ok (x : R) : -1 <= x <= 1 -> Py.asin x = Ok (Ratan.asin x).
Proof.
  intros [H1 H2]. unfold Py.asin.
  destruct (Rlt_dec x (-1)); [lra |].
  destruct (Rlt_dec 1 x); [lra | reflexivity].
Qed.

Lemma div_ok (a b : R) : b <> 0 -> Py.div a b = Ok (a / b).
Proof.
  intros H. unfold Py.div. destruct (Req_dec_T b 0); [contradiction | reflexivity].
Qed.

Lemma dist_distance (p q : R * R) : Py.dist p q = distance p q.
Proof.
  destruct p as [px py], q as [qx qy]. unfold Py.dist, distance. simpl.
  f_equal. ring.
Qed.

Lemma distance_nonneg (p q : R * R) : 0 <= distance p q.
Proof. unfold distance. apply sqrt_pos. Qed.

(** ** Bulge geometry engine *)

(** With a radius of at least [EPS] the early return is not taken, the
    division and the arcsine succeed. *)
Lemma bulge_without_fallback_ok (p1 p2 : R * R) (r : R) (ccw : bool) :
  EPS <= r ->
  bulge_without_fallback p1 p2 r ccw =
  Ok (arc_bulge p1 p2 r ccw).
Proof.
  intros Hr. pose proof EPS_pos as He.
  unfold bulge_without_fallback.
  rewrite div_ok by lra. cbn [bind].
  rewrite clamp_max_min, asin_ok by apply clamp_bounds. cbn [bind].
  rewrite dist_distance. reflexivity.
Qed.

Lemma bulge_fallback_unused (p1 p2 : R * R) (r : R) (ccw : bool) :
  EPS <= r ->
  bulge_from_points_radius p1 p2 r ccw = bulge_without_fallback p1 p2 r ccw.
Proof.
  intros Hr. unfold bulge_from_points_radius.
  rewrite lt_false by lra. reflexivity.
Qed.

Lemma bulge_from_points_radius_ok (p1 p2 : R * R) (r : R) (ccw : bool) :
  EPS <= r ->
  bulge_from_points_radius p1 p2 r ccw = Ok (arc_bulge p1 p2 r ccw).
Proof.
  intros Hr. rewrite bulge_fallback_unused by exact Hr.
  now apply bulge_without_fallback_ok.
Qed.

Lemma index_nth {A : Type} (xs : list A) (i : nat) (d : A) :
  (i < List.length xs)%nat -> index xs i = Ok (nth i xs d).
Proof.
  intros H. unfold index.
  rewrite (nth_error_nth' xs d H). reflexivity.
Qed.

Section BuildLoop.

Variable callee : R * R -> R * R -> R -> bool -> result R.
Variable g : R * R -> R * R -> R -> bool -> R.
Hypothesis callee_ok :
  forall p q r ccw, EPS <= r -> callee p q r ccw = Ok (g p q r ccw).

Lemma build_loop_ok (pts : list point) (range : list nat) :
  Forall (fun i => (i < List.length pts)%nat) range ->
  forall out,
    build_loop callee pts (List.length pts) range out =
    Ok (out ++ map (vertex_with g pts) range)%list.
Proof.
  induction 1 as [| i range Hi Hrange IH]; intros out; cbn [build_loop map].
  - now rewrite app_nil_r.
  - assert (Hn : (List.length pts <> 0)%nat) by lia.
    pose proof (Nat.mod_upper_bound (i + 1) _ Hn) as Hj.
    rewrite (index_nth pts i (0, 0, 0) Hi). cbn [bind].
    destruct (nth i pts (0, 0, 0)) as [[x y] k] eqn:Ep.
    rewrite (index_nth pts _ (0, 0, 0) Hj). cbn [bind].
    destruct (nth ((i + 1) mod List.length pts) pts (0, 0, 0))
      as [[x2 y2] k2] eqn:Eq.
    assert (Ev : vertex_with g pts i =
                 (x, y, if Rlt_dec (Rabs k) EPS then 0
                        else g (x, y) (x2, y2) (Rabs k) (Py.gt k 0))).
    { unfold vertex_with. rewrite Ep, Eq. reflexivity. }
    rewrite Ev. unfold Py.lt.
    destruct (Rlt_dec (Rabs k) EPS) as [Hk | Hk]; cbn [bind].
    + rewrite IH, <- app_assoc. reflexivity.
    + rewrite callee_ok by lra. cbn [bind].
      rewrite IH, <- app_assoc. reflexivity.
Qed.

Lemma build_xyb_with_ok (pts : list point) :
  build_xyb_with callee pts =
  Ok (if (List.length pts <? 2)%nat then []
      else map (vertex_with g pts) (seq 0 (List.length pts))).
Proof.
  unfold build_xyb_with.
  destruct (List.length pts <? 2)%nat; [reflexivity |].
  rewrite build_loop_ok; [reflexivity |].
  apply Forall_forall. intros i Hi. apply in_seq in Hi. lia.
Qed.

End BuildLoop.

Lemma vertex_with_spec (pts : list point) (i : nat) :
  vertex_with arc_bulge pts i = vertex_spec pts i.
Proof.
  unfold vertex_with, vertex_spec, bulge_spec, arc_bulge, included_angle.
  f_equal.
  destruct (Rlt_dec (Rabs (third (nth i pts (0, 0, 0)))) EPS) as [Hk | Hk];
    [reflexivity |].
  pose proof EPS_pos.
  destruct (Rlt_dec 0 (third (nth i pts (0, 0, 0)))) as [Hp | Hp].
  - rewrite gt_true by lra. reflexivity.
  - rewrite gt_false by lra. reflexivity.
Qed.

Lemma build_xyb_from_points_eq (pts : list point) :
  build_xyb_from_points pts =
  Ok (if (List.length pts <? 2)%nat then []
      else map (vertex_spec pts) (seq 0 (List.length pts))).
Proof.
  unfold build_xyb_from_points.
  rewrite (build_xyb_with_ok _ _ bulge_from_points_radius_ok).
  destruct (List.length pts <? 2)%nat; [reflexivity |].
  f_equal. apply map_ext. intros i. apply vertex_with_spec.
Qed.

Lemma build_xyb_from_points_ge2 (pts : list point) :
  (2 <= List.length pts)%nat ->
  build_xyb_from_points pts =
  Ok (map (vertex_spec pts) (seq 0 (List.length pts))).
Proof.
  intros H. rewrite build_xyb_from_points_eq.
  destruct (Nat.ltb_spec (List.length pts) 2); [lia | reflexivity].
Qed.

Lemma nth_map_seq {A : Type} (f : nat -> A) (n i : nat) (d : A) :
  (i < n)%nat -> nth i (map f (seq 0 n)) d = f i.
Proof.
  intros H. rewrite (nth_indep _ d (f 0%nat)) by (now rewrite length_map, length_seq).
  rewrite (map_nth f), seq_nth by exact H. reflexivity.
Qed.

Lemma bulge_spec_straight (p q : R * R) (k : R) :
  Rabs k < EPS -> bulge_spec p q k = 0.
Proof.
  intros Hk. unfold bulge_spec.
  destruct (Rlt_dec (Rabs k) EPS); [reflexivity | contradiction].
Qed.












Lemma xy_vertex_spec (pts : list point) (i : nat) :
  xy (vertex_spec pts i) = xy (nth i pts (0, 0, 0)).
Proof. unfold vertex_spec, xy. cbn [fst snd]. reflexivity. Qed.

Lemma map_nth_seq {A : Type} (xs : list A) (d : A) :
  map (fun i => nth i xs d) (seq 0 (List.length xs)) = xs.
Proof.
  apply (nth_ext _ _ d d).
  - now rewrite length_map, length_seq.
  - intros i Hi. rewrite length_map, length_seq in Hi.
    now rewrite nth_map_seq.
Qed.

(** C2.  For a contour of at least two points the engine returns one
    vertex per input point, in the input order, each with the point's own
    [(x, y)]; only the third component is new. *)
Theorem coordinates_preserved (pts : list point) :
  (2 <= List.length pts)%nat ->
  exists out,
    build_xyb_from_points pts = Ok out /\
    List.length out = List.length pts /\
    map xy out = map xy pts.
Proof.
  intros Hn. eexists. split; [now apply build_xyb_from_points_ge2 |].
  split; [now rewrite length_map, length_seq |].
  rewrite map_map.
  rewrite (map_ext _ (fun i => xy (nth i pts (0, 0, 0))) (xy_vertex_spec pts)).
  rewrite <- (map_map (fun i => nth i pts (0, 0, 0)) xy).
  now rewrite map_nth_seq.
Qed.

Lemma coordinates_preserved_witness :
  exists out,
    build_xyb_from_points quad = Ok out /\
    List.length out = 4%nat /\
    map xy out = [(0, 0); (10, 0); (10, 10); (0, 10)].
Proof.
  apply (coordinates_preserved quad). cbn. lia.
Defined.

(** The sign of the bulge of an arc. *)
Lemma asin_pos (x : R) : 0 < x <= 1 -> 0 < Ratan.asin x.
Proof.
  intros [H0 H1].
  destruct (Rlt_dec 0 (Ratan.asin x)) as [Hp | Hp]; [exact Hp | exfalso].
  pose proof (asin_bound x) as [Hl _].
  pose proof (sin_asin x ltac:(lra)) as Hs.
  pose proof PI_RGT_0 as Hpi.
  assert (Hge : 0 <= sin (- Ratan.asin x)) by (apply sin_ge_0; lra).
  rewrite sin_neg in Hge. lra.
Qed.

Lemma included_angle_pos (d k : R) :
  0 < d -> EPS <= Rabs k -> 0 < included_angle d k <= PI.
Proof.
  intros Hd Hk. pose proof EPS_pos as He. unfold included_angle.
  assert (Hq : 0 < d / (2 * Rabs k)) by (apply Rdiv_lt_0_compat; lra).
  assert (Hc : 0 < clamp (d / (2 * Rabs k)) (-1) 1 <= 1).
  { unfold clamp. destruct (Rlt_dec _ (-1)); [lra |].
    destruct (Rlt_dec 1 _); lra. }
  pose proof (asin_pos _ Hc). pose proof (asin_bound (clamp (d / (2 * Rabs k)) (-1) 1)).
  lra.
Qed.

Lemma bulge_spec_pos (p q : R * R) (k : R) :
  EPS <= k -> 0 < distance p q -> 0 < bulge_spec p q k.
Proof.
  intros Hk Hd. pose proof EPS_pos as He. pose proof PI_RGT_0 as Hpi.
  assert (Ha : EPS <= Rabs k) by (rewrite Rabs_pos_eq; lra).
  pose proof (included_angle_pos _ _ Hd Ha) as [H1 H2].
  unfold bulge_spec. destruct (Rlt_dec (Rabs k) EPS); [lra |].
  destruct (Rlt_dec 0 k); [| lra].
  apply tan_gt_0; lra.
Qed.

Lemma bulge_spec_neg (p q : R * R) (k : R) :
  k <= - EPS -> 0 < distance p q -> bulge_spec p q k < 0.
Proof.
  intros Hk Hd. pose proof EPS_pos as He. pose proof PI_RGT_0 as Hpi.
  assert (Ha : EPS <= Rabs k) by (rewrite Rabs_left; lra).
  pose proof (included_angle_pos _ _ Hd Ha) as [H1 H2].
  unfold bulge_spec. destruct (Rlt_dec (Rabs k) EPS); [lra |].
  destruct (Rlt_dec 0 k); [lra |].
  assert (0 < Rtrigo1.tan (included_angle (distance p q) k / 4))
    by (apply tan_gt_0; lra).
  lra.
Qed.

Lemma bulge_spec_zero_chord (p q : R * R) (k : R) :
  distance p q = 0 -> bulge_spec p q k = 0.
Proof.
  intros Hd. unfold bulge_spec, included_angle.
  destruct (Rlt_dec (Rabs k) EPS); [reflexivity |].
  rewrite Hd. replace (0 / (2 * Rabs k)) with 0 by (unfold Rdiv; ring).
  unfold clamp. destruct (Rlt_dec 0 (-1)); [lra |].
  destruct (Rlt_dec 1 0); [lra |].
  rewrite asin_0. replace (2 * 0 / 4) with 0 by (unfold Rdiv; ring).
  rewrite tan_0. destruct (Rlt_dec 0 k); lra.
Qed.

Lemma coincident_pair_vertices :
  build_xyb_from_points coincident_pair = Ok [(0, 0, 0); (0, 0, 0)].
Proof.
  rewrite build_xyb_from_points_ge2 by (cbn; lia).
  unfold coincident_pair, vertex_spec.
  cbn [List.length seq map nth Nat.modulo Nat.divmod Nat.add Nat.sub fst snd].
  unfold xy, third. cbn [fst snd].
  repeat f_equal.
  - apply bulge_spec_zero_chord. unfold distance. cbn [fst snd].
    replace ((0 - 0) ^ 2 + (0 - 0) ^ 2) with 0 by ring. apply sqrt_0.
  - apply bulge_spec_straight. rewrite Rabs_R0. apply EPS_pos.
Qed.

(** C3 as stated fails: the first point of [coincident_pair] has
    [k = 5 > 0], and its bulge is 0. *)
Lemma sign_law_fails : ~ sign_law coincident_pair.
Proof.
  intros H.
  destruct (H _ coincident_pair_vertices 0%nat ltac:(cbn; lia)) as [Hpos _].
  unfold coincident_pair in Hpos. cbn [nth third snd] in Hpos.
  lra.
Qed.

(** C3, amended.  For a point of a contour of at least two points: if
    [k >= 1e-9] and the next point lies at a nonzero distance the bulge is
    positive; if [k <= -1e-9] and the next point lies at a nonzero distance
    it is negative; if [|k| < 1e-9] (so also for [k = 0]) it is exactly 0;
    and it is 0 whenever the next point coincides with this one. *)
Theorem sign_law_amended (pts : list point) (i : nat) :
  (2 <= List.length pts)%nat -> (i < List.length pts)%nat ->
  exists out,
    build_xyb_from_points pts = Ok out /\
    let p := nth i pts (0, 0, 0) in
    let q := nth ((i + 1) mod List.length pts) pts (0, 0, 0) in
    let k := third p in
    let b := third (nth i out (0, 0, 0)) in
    (k >= EPS -> distance (xy p) (xy q) > 0 -> b > 0) /\
    (k <= - EPS -> distance (xy p) (xy q) > 0 -> b < 0) /\
    (Rabs k < EPS \/ k = 0 -> b = 0) /\
    (distance (xy p) (xy q) = 0 -> b = 0).
Proof.
  intros Hn Hi. eexists. split; [now apply build_xyb_from_points_ge2 |].
  cbv zeta. rewrite nth_map_seq by exact Hi.
  set (p := nth i pts (0, 0, 0)).
  set (q := nth ((i + 1) mod List.length pts) pts (0, 0, 0)).
  change (third (vertex_spec pts i)) with (bulge_spec (xy p) (xy q) (third p)).
  repeat split.
  - intros Hk Hd. apply bulge_spec_pos; lra.
  - intros Hk Hd. apply bulge_spec_neg; lra.
  - intros [Hk | Hk]; apply bulge_spec_straight; [exact Hk |].
    rewrite Hk, Rabs_R0. apply EPS_pos.
  - apply bulge_spec_zero_chord.
Qed.

Lemma sign_law_amended_witness :
  exists out,
    build_xyb_from_points quad = Ok out /\
    let p := nth 1 quad (0, 0, 0) in
    let q := nth ((1 + 1) mod List.length quad) quad (0, 0, 0) in
    let k := third p in
    let b := third (nth 1 out (0, 0, 0)) in
    (k >= EPS -> distance (xy p) (xy q) > 0 -> b > 0) /\
    (k <= - EPS -> distance (xy p) (xy q) > 0 -> b < 0) /\
    (Rabs k < EPS \/ k = 0 -> b = 0) /\
    (distance (xy p) (xy q) = 0 -> b = 0).
Proof.
  apply (sign_law_amended quad 1); cbn; lia.
Defined.

Lemma radius_checked_ok (p1 p2 : R * R) (r : R) (ccw : bool) :
  EPS <= r ->
  radius_checked bulge_from_points_radius p1 p2 r ccw =
  Ok (arc_bulge p1 p2 r ccw).
Proof.
  intros Hr. unfold radius_checked.
  destruct (Rlt_dec r EPS); [lra |].
  now apply bulge_from_points_radius_ok.
Qed.

Lemma clamped_angle_defined (v : R) :
  exists a,
    Py.asin (Py.max (-1) (Py.min 1 v)) = Ok a /\
    - PI <= 2 * a <= PI /\
    cos (2 * a / 4) <> 0.
Proof.
  rewrite clamp_max_min. exists (Ratan.asin (clamp v (-1) 1)).
  pose proof (asin_bound (clamp v (-1) 1)) as [Hl Hu].
  pose proof PI_RGT_0 as Hpi.
  split; [apply asin_ok, clamp_bounds |].
  split; [lra |].
  apply Rgt_not_eq, cos_gt_0; lra.
Qed.

(** C9.  [build_xyb_from_points] returns a vertex list on every list of
    triples, without an exception.  Every call it makes to
    [bulge_from_points_radius] passes a radius [r = |k| >= 1e-9]: run with a
    callee that refuses a smaller radius, or with one that lacks the
    [r < EPS] early return, the loop gives the same result.  The argument of
    the arcsine lies in [-1, 1] whatever the quotient is, so the arcsine is
    defined, [theta] lies in [-pi, pi] and the tangent of [theta / 4] has a
    nonzero cosine under it. *)
Theorem engine_total :
  (forall pts : list point,
      exists out,
        build_xyb_from_points pts = Ok out /\
        build_xyb_with (radius_checked bulge_from_points_radius) pts = Ok out /\
        build_xyb_with bulge_without_fallback pts = Ok out)
  /\ (forall v : R,
        - 1 <= Py.max (-1) (Py.min 1 v) <= 1 /\
        exists a,
          Py.asin (Py.max (-1) (Py.min 1 v)) = Ok a /\
          - PI <= 2 * a <= PI /\
          cos (2 * a / 4) <> 0).
Proof.
  split.
  - intros pts. eexists. split; [| split].
    + unfold build_xyb_from_points.
      apply (build_xyb_with_ok _ _ bulge_from_points_radius_ok).
    + apply (build_xyb_with_ok _ _ radius_checked_ok).
    + apply (build_xyb_with_ok _ _ bulge_without_fallback_ok).
  - intros v. split.
    + rewrite clamp_max_min. apply clamp_bounds.
    + apply clamped_angle_defined.
Qed.

(** ** Numeric tokens *)

Local Open Scope string_scope.

Lemma span_digits_inv (s ds rest : string) :
  span_digits s = (ds, rest) ->
  s = ds ++ rest /\ all_digits ds = true /\ stops rest.
Proof.
  revert ds rest. induction s as [| c t IH]; intros ds rest H; cbn in H.
  - injection H as <- <-. cbn. auto.
  - destruct (Str.isdigit c) eqn:Ec.
    + destruct (span_digits t) as [ds' rest'] eqn:Et.
      injection H as <- <-.
      destruct (IH _ _ eq_refl) as [-> [Hd Hs]].
      cbn. rewrite Ec, Hd. auto.
    + injection H as <- <-. cbn. auto.
Qed.

Lemma span_digits_app (ds rest : string) :
  all_digits ds = true -> stops rest -> span_digits (ds ++ rest) = (ds, rest).
Proof.
  intros Hd Hs. induction ds as [| c t IH]; cbn in *.
  - destruct rest as [| c t]; [reflexivity |].
    cbn in *. now rewrite Hs.
  - apply andb_prop in Hd as [Hc Ht]. now rewrite Hc, IH.
Qed.

Lemma replace_comma_app (a b : string) :
  Str.replace_comma (a ++ b) = Str.replace_comma a ++ Str.replace_comma b.
Proof. induction a as [| c t IH]; cbn; [reflexivity | now rewrite IH]. Qed.

Lemma isdigit_not_comma (c : ascii) :
  Str.isdigit c = true -> Ascii.eqb c ","%char = false.
Proof.
  intros H. destruct (Ascii.eqb_spec c ","%char) as [-> |]; [| reflexivity].
  discriminate H.
Qed.

Lemma isdigit_not_sign (c : ascii) :
  Str.isdigit c = true ->
  Ascii.eqb c "-"%char = false /\ Ascii.eqb c "+"%char = false.
Proof.
  intros H. split.
  - destruct (Ascii.eqb_spec c "-"%char) as [-> |]; [discriminate H | reflexivity].
  - destruct (Ascii.eqb_spec c "+"%char) as [-> |]; [discriminate H | reflexivity].
Qed.

Lemma replace_comma_digits (ds : string) :
  all_digits ds = true -> Str.replace_comma ds = ds.
Proof.
  induction ds as [| c t IH]; cbn; [reflexivity |].
  intros H. apply andb_prop in H as [Hc Ht].
  now rewrite (isdigit_not_comma _ Hc), IH.
Qed.

(** A string of digits, possibly followed by a point and more digits, reads
    as a decimal. *)
Lemma decimal_of_unsigned (neg : bool) (ds fr : string) :
  ds <> "" -> all_digits ds = true ->
  fr = "" \/ (exists fs, fr = String "."%char fs /\ fs <> "" /\
                         all_digits fs = true) ->
  exists d,
    match span_digits (ds ++ fr) with
    | (EmptyString, _) => None
    | (ip, EmptyString) => Some (neg, digits_value 0 ip, 1%Z)
    | (ip, String c fp) =>
        if Ascii.eqb c "."%char && negb (fp =? "") && all_digits fp
        then Some (neg, digits_value 0 (ip ++ fp),
                   (10 ^ Z.of_nat (String.length fp))%Z)
        else None
    end = Some d.
Proof.
  intros Hne Hd [-> | [fs [-> [Hfs Hdf]]]].
  - rewrite span_digits_app by (cbn; auto).
    destruct ds; [contradiction | eauto].
  - rewrite span_digits_app by (cbn; auto).
    destruct ds; [contradiction |].
    rewrite Hdf. destruct (String.eqb_spec fs ""); [contradiction |].
    cbn. eauto.
Qed.

Lemma decimal_of_str_unsigned (ds fr : string) :
  ds <> "" -> all_digits ds = true ->
  fr = "" \/ (exists fs, fr = String "."%char fs /\ fs <> "" /\
                         all_digits fs = true) ->
  exists d, decimal_of_str (ds ++ fr) = Some d.
Proof.
  intros Hne Hd Hfr. destruct ds as [| d0 ds']; [contradiction |].
  assert (Hd0 : Str.isdigit d0 = true).
  { cbn in Hd. now apply andb_prop in Hd as [? _]. }
  destruct (isdigit_not_sign _ Hd0) as [Hm Hp].
  unfold decimal_of_str.
  change (String d0 ds' ++ fr) with (String d0 (ds' ++ fr)).
  cbv beta iota. rewrite Hm, Hp.
  change (String d0 (ds' ++ fr)) with (String d0 ds' ++ fr).
  now apply decimal_of_unsigned.
Qed.

Lemma decimal_of_str_signed (c : ascii) (ds fr : string) :
  is_sign c = true -> ds <> "" -> all_digits ds = true ->
  fr = "" \/ (exists fs, fr = String "."%char fs /\ fs <> "" /\
                         all_digits fs = true) ->
  exists d, decimal_of_str (String c (ds ++ fr)) = Some d.
Proof.
  intros Hc Hne Hd Hfr. unfold is_sign in Hc.
  apply orb_prop in Hc as [Hc | Hc]; apply Ascii.eqb_eq in Hc; subst c;
    unfold decimal_of_str; cbn [Ascii.eqb Bool.eqb];
    now apply decimal_of_unsigned.
Qed.

Lemma match_fraction_decimal (s2 fr s3 : string) :
  match_fraction s2 = (fr, s3) ->
  Str.replace_comma fr = "" \/
  exists fs, Str.replace_comma fr = String "."%char fs /\
             fs <> "" /\ all_digits fs = true.
Proof.
  unfold match_fraction. intros Efr. destruct s2 as [| c t].
  - injection Efr as <- <-. now left.
  - destruct (is_sep c) eqn:Ec.
    + destruct (span_digits t) as [fs r] eqn:Et.
      destruct (span_digits_inv _ _ _ Et) as [_ [Hfs _]].
      destruct fs as [| f0 fs'].
      * injection Efr as <- <-. now left.
      * injection Efr as <- <-. right. exists (String f0 fs').
        change (Str.replace_comma (String c (String f0 fs')))
          with (String (if Ascii.eqb c ","%char then "."%char else c)
                       (Str.replace_comma (String f0 fs'))).
        rewrite (replace_comma_digits (String f0 fs') Hfs).
        split; [| split; [discriminate | exact Hfs]].
        unfold is_sep in Ec. apply orb_prop in Ec as [Ec | Ec];
          apply Ascii.eqb_eq in Ec; subst c; reflexivity.
    + injection Efr as <- <-. now left.
Qed.

(** What [FLOAT_RE] matches, [float] reads, once the comma is a point. *)
Lemma match_FLOAT_RE_decimal (s m rest : string) :
  match_FLOAT_RE s = Some (m, rest) ->
  exists d, decimal_of_str (Str.replace_comma m) = Some d.
Proof.
  unfold match_FLOAT_RE.
  assert (Hgen : forall sign s1,
    (sign = "" \/ exists c, sign = String c "" /\ is_sign c = true) ->
    match span_digits s1 with
    | (EmptyString, _) => None
    | (String a s0 as ds, s2) =>
        let '(fr, s3) := match_fraction s2 in Some (sign ++ ds ++ fr, s3)
    end = Some (m, rest) ->
    exists d, decimal_of_str (Str.replace_comma m) = Some d).
  { intros sign s1 Hsign.
    destruct (span_digits s1) as [ds s2] eqn:Eds.
    destruct (span_digits_inv _ _ _ Eds) as [_ [Hd _]].
    destruct ds as [| d0 ds']; [discriminate |].
    destruct (match_fraction s2) as [fr s3] eqn:Efr.
    intros H. injection H as <- <-.
    pose proof (match_fraction_decimal _ _ _ Efr) as Hfr.
    assert (Hne : String d0 ds' <> "") by discriminate.
    destruct Hsign as [-> | [c [-> Hc]]].
    - match goal with
      | |- context [decimal_of_str ?t] =>
          change t with (Str.replace_comma (String d0 ds' ++ fr))
      end.
      rewrite replace_comma_app, (replace_comma_digits _ Hd).
      now apply decimal_of_str_unsigned.
    - match goal with
      | |- context [decimal_of_str ?t] =>
          change t
            with (String (if Ascii.eqb c ","%char then "."%char else c)
                         (Str.replace_comma (String d0 ds' ++ fr)))
      end.
      assert (Hcc : Ascii.eqb c ","%char = false).
      { unfold is_sign in Hc. apply orb_prop in Hc as [Hc | Hc];
          apply Ascii.eqb_eq in Hc; subst c; reflexivity. }
      rewrite Hcc, replace_comma_app, (replace_comma_digits _ Hd).
      now apply decimal_of_str_signed. }
  destruct s as [| c t].
  - apply Hgen. now left.
  - destruct (is_sign c) eqn:Ec.
    + apply Hgen. right. eauto.
    + apply Hgen. now left.
Qed.

Lemma findall_from_decimal (fuel : nat) (s tok : string) :
  In tok (findall_from fuel s) ->
  exists d, decimal_of_str (Str.replace_comma tok) = Some d.
Proof.
  revert s. induction fuel as [| fuel IH]; intros s; cbn [findall_from].
  - intros [].
  - destruct s as [| c t]; [intros [] |].
    destruct (match_FLOAT_RE (String c t)) as [[m rest] |] eqn:Em.
    + intros [<- | Hin]; [now apply (match_FLOAT_RE_decimal _ _ _ Em) |].
      now apply (IH rest).
    + apply IH.
Qed.

Lemma fnum_token (ln tok : string) :
  In tok (findall_FLOAT_RE ln) -> fnum tok = Ok (token_value tok).
Proof.
  intros Hin. destruct (findall_from_decimal _ _ _ Hin) as [d Hd].
  unfold token_value, fnum, float_of_str. now rewrite Hd.
Qed.

Lemma length_numbers (ln : string) :
  List.length (numbers ln) = List.length (findall_FLOAT_RE ln).
Proof. unfold numbers. apply length_map. Qed.

(** [fnum(nums[i])] succeeds for every index in range, with the value
    [numbers[i]]. *)
Lemma index_fnum (ln : string) (i : nat) (A : Type) (k : R -> result A) :
  (i < List.length (findall_FLOAT_RE ln))%nat ->
  (s <- index (findall_FLOAT_RE ln) i ;; x <- fnum s ;; k x)%py =
  k (number ln i).
Proof.
  intros Hi. rewrite (index_nth _ _ ""%string Hi). cbn [bind].
  rewrite (fnum_token ln) by (now apply nth_In). cbn [bind].
  unfold number, numbers.
  rewrite (nth_indep _ 0%R (token_value "")) by (now rewrite length_map).
  now rewrite map_nth.
Qed.

Lemma lower_char_l (c : ascii) :
  Ascii.eqb (Str.lower_char c) "l"%char =
  Ascii.eqb c "l"%char || Ascii.eqb c "L"%char.
Proof.
  destruct c as [b0 b1 b2 b3 b4 b5 b6 b7].
  destruct b0, b1, b2, b3, b4, b5, b6, b7; vm_compute; reflexivity.
Qed.

Lemma contains_lower_l (ln : string) :
  Str.contains "l"%char (Str.lower ln) =
  Str.contains "l"%char ln || Str.contains "L"%char ln.
Proof.
  induction ln as [| c t IH]; cbn [Str.lower Str.contains]; [reflexivity |].
  rewrite IH, lower_char_l.
  destruct (Ascii.eqb c "l"%char), (Ascii.eqb c "L"%char),
    (Str.contains "l"%char t), (Str.contains "L"%char t); reflexivity.
Qed.

Lemma classify_bo_line_eq (ln : string) :
  classify_bo_line ln = Ok (classify_either_case ln).
Proof.
  unfold classify_bo_line, classify_either_case, classify_spec.
  rewrite contains_lower_l, length_numbers.
  destruct (Str.contains "l"%char ln || Str.contains "L"%char ln);
    cbn [andb].
  - destruct (Nat.leb_spec 6 (List.length (findall_FLOAT_RE ln))) as [H6 | H6].
    + rewrite !index_fnum by lia. reflexivity.
    + destruct (Nat.leb_spec 3 (List.length (findall_FLOAT_RE ln)))
        as [H3 | H3]; [| reflexivity].
      rewrite !index_fnum by lia. reflexivity.
  - destruct (Nat.leb_spec 3 (List.length (findall_FLOAT_RE ln)))
      as [H3 | H3]; [| reflexivity].
    rewrite !index_fnum by lia. reflexivity.
Qed.

Lemma token_value_decimal (tok : string) (d : bool * Z * Z) :
  decimal_of_str (Str.replace_comma tok) = Some d ->
  token_value tok = decimal_value d.
Proof.
  intros H. unfold token_value, fnum, float_of_str. now rewrite H.
Qed.


(** ** Slot synthesizer *)

Local Open Scope R_scope.

Lemma hypot_distance (c1 c2 : R * R) :
  Py.hypot (fst c2 - fst c1) (snd c2 - snd c1) = distance c1 c2.
Proof. unfold Py.hypot, distance. f_equal. ring. Qed.

Lemma add_slot_capsule_outline (msp : modelspace) (c1 c2 : R * R) (dia : R)
      (layer : string) :
  distance c1 c2 >= EPS ->
  add_slot_capsule msp c1 c2 dia layer =
  Ok (msp ++ [LWPolyline layer (slot_outline c1 c2 dia)])%list.
Proof.
  intros HL. pose proof EPS_pos as He.
  destruct c1 as [x1 y1], c2 as [x2 y2]. unfold add_slot_capsule.
  rewrite div_ok by lra. cbn [bind].
  change (Py.hypot (x2 - x1) (y2 - y1))
    with (Py.hypot (fst (x2, y2) - fst (x1, y1)) (snd (x2, y2) - snd (x1, y1))).
  rewrite hypot_distance. rewrite lt_false by lra.
  rewrite !div_ok by lra. cbn [bind fst snd].
  unfold add_lwpolyline, slot_outline. cbn [fst snd].
  do 3 f_equal.
  repeat (f_equal; try (unfold Rdiv; ring)).
Qed.

Lemma add_slot_capsule_degenerate (msp : modelspace) (c1 c2 : R * R)
      (dia : R) (layer : string) :
  distance c1 c2 < EPS ->
  add_slot_capsule msp c1 c2 dia layer =
  Ok (if Rlt_dec 0 dia then (msp ++ [Circle layer c1 (dia / 2)])%list
      else msp).
Proof.
  intros HL. destruct c1 as [x1 y1], c2 as [x2 y2]. unfold add_slot_capsule.
  rewrite div_ok by lra. cbn [bind].
  change (Py.hypot (x2 - x1) (y2 - y1))
    with (Py.hypot (fst (x2, y2) - fst (x1, y1)) (snd (x2, y2) - snd (x1, y1))).
  rewrite hypot_distance. rewrite lt_true by lra.
  destruct (Rlt_dec 0 dia).
  - rewrite gt_true by lra. reflexivity.
  - rewrite gt_false by lra. reflexivity.
Qed.










(** ** Bore classifier *)

Local Open Scope string_scope.

Lemma numbers_upper_example :
  numbers "1 2 3 4 L 5 6" = [1; 2; 3; 4; 5; 6]%R.
Proof.
  unfold numbers.
  change (findall_FLOAT_RE "1 2 3 4 L 5 6")
    with ["1"; "2"; "3"; "4"; "5"; "6"].
  cbn [map].
  rewrite (token_value_decimal "1" (false, 1%Z, 1%Z) eq_refl).
  rewrite (token_value_decimal "2" (false, 2%Z, 1%Z) eq_refl).
  rewrite (token_value_decimal "3" (false, 3%Z, 1%Z) eq_refl).
  rewrite (token_value_decimal "4" (false, 4%Z, 1%Z) eq_refl).
  rewrite (token_value_decimal "5" (false, 5%Z, 1%Z) eq_refl).
  rewrite (token_value_decimal "6" (false, 6%Z, 1%Z) eq_refl).
  unfold decimal_value. repeat f_equal; lra.
Qed.

(** C5 as stated fails: the line [1 2 3 4 L 5 6] holds no [l], so the
    statement makes it a hole; the code, which looks for [l] in the
    lowercased line, makes it a slot. *)
Lemma literal_l_fails :
  classify_as_stated "1 2 3 4 L 5 6" =
    Some (BoCircle (number "1 2 3 4 L 5 6" 0, number "1 2 3 4 L 5 6" 1)
                   (number "1 2 3 4 L 5 6" 2)) /\
  classify_bo_line "1 2 3 4 L 5 6" <> Ok (classify_as_stated "1 2 3 4 L 5 6").
Proof.
  assert (Hs : classify_as_stated "1 2 3 4 L 5 6" =
               Some (BoCircle (number "1 2 3 4 L 5 6" 0,
                               number "1 2 3 4 L 5 6" 1)
                              (number "1 2 3 4 L 5 6" 2))).
  { unfold classify_as_stated, classify_spec.
    rewrite numbers_upper_example.
    change (Str.contains "l"%char "1 2 3 4 L 5 6") with false.
    reflexivity. }
  split; [exact Hs |].
  rewrite Hs, classify_bo_line_eq.
  unfold classify_either_case, classify_spec.
  rewrite numbers_upper_example.
  change (Str.contains "L"%char "1 2 3 4 L 5 6") with true.
  rewrite orb_true_r. cbn [andb List.length Nat.leb].
  discriminate.
Qed.

(** C5, amended.  A line of a BO block that holds the letter [l] or [L]
    and yields at least six numeric tokens is a slot with
    [center1 = (numbers[0], numbers[1])], [diameter = numbers[2]] and
    [center2 = center1 + (numbers[4], numbers[5])], [numbers[3]] unused;
    otherwise a line that yields at least three numeric tokens is a hole
    with centre [(numbers[0], numbers[1])] and diameter [numbers[2]];
    otherwise the line gives no item.  No line raises. *)
Theorem bo_line_classification (ln : string) :
  classify_bo_line ln =
  Ok (if (Str.contains "l"%char ln || Str.contains "L"%char ln)
         && (6 <=? List.length (numbers ln))%nat
      then Some (BoSlot (number ln 0, number ln 1)
                        (number ln 0 + number ln 4, number ln 1 + number ln 5)%R
                        (number ln 2))
      else if (3 <=? List.length (numbers ln))%nat
           then Some (BoCircle (number ln 0, number ln 1) (number ln 2))
           else None).
Proof. apply classify_bo_line_eq. Qed.

(** ** Holes *)

Lemma emit_hole (msp : modelspace) (c : R * R) (dia : R) :
  emit_bo_item msp (BoCircle c dia) =
  Ok (if Rlt_dec 0 dia then (msp ++ [Circle "cutout" c (dia / 2)])%list
      else msp).
Proof.
  destruct c as [x y]. unfold emit_bo_item.
  rewrite div_ok by lra. cbn [bind].
  destruct (Rlt_dec 0 dia).
  - rewrite gt_true by lra. reflexivity.
  - rewrite gt_false by lra. reflexivity.
Qed.

Lemma generate_single_bo_line (ln : string) (item : option bo_item) :
  classify_bo_line ln = Ok item ->
  generate_from_blocks [("BO", [ln])] =
  match item with
  | Some it => emit_bo_item [] it
  | None => Ok []
  end.
Proof.
  intros H. unfold generate_from_blocks.
  cbn [collect_loop String.eqb Ascii.eqb Bool.eqb bo_lines_loop].
  rewrite H.
  cbn [bind collect_init bo_items outer_pts inner_contours app
       emit_outer emit_inner].
  destruct item as [it |]; cbn [emit_bo]; [| reflexivity].
  destruct (emit_bo_item [] it); reflexivity.
Qed.

(** C10.  A BO line classified as a hole with a diameter of 0 or less
    leaves the model space as it was, and a drawing made of that line alone
    is empty: no circle, no error. *)
Theorem nonpositive_hole_dropped (ln : string) (c : R * R) (dia : R) :
  classify_bo_line ln = Ok (Some (BoCircle c dia)) ->
  (dia <= 0)%R ->
  (forall msp : modelspace, emit_bo_item msp (BoCircle c dia) = Ok msp) /\
  generate_from_blocks [("BO", [ln])] = Ok [].
Proof.
  intros Hc Hd.
  assert (He : forall msp, emit_bo_item msp (BoCircle c dia) = Ok msp).
  { intros msp. rewrite emit_hole. destruct (Rlt_dec 0 dia); [lra | reflexivity]. }
  split; [exact He |].
  rewrite (generate_single_bo_line _ _ Hc). apply He.
Qed.

Lemma classify_negative_hole :
  classify_bo_line "5 5 -12" = Ok (Some (BoCircle (5, 5) (-12))%R).
Proof.
  rewrite classify_bo_line_eq.
  unfold classify_either_case, classify_spec, number, numbers.
  change (findall_FLOAT_RE "5 5 -12") with ["5"; "5"; "-12"].
  change (Str.contains "l"%char "5 5 -12" || Str.contains "L"%char "5 5 -12")
    with false.
  cbn [andb map List.length Nat.leb nth].
  rewrite (token_value_decimal "5" (false, 5%Z, 1%Z) eq_refl).
  rewrite (token_value_decimal "-12" (true, 12%Z, 1%Z) eq_refl).
  unfold decimal_value. repeat (f_equal; try lra).
Qed.

Lemma nonpositive_hole_dropped_witness :
  generate_from_blocks [("BO", ["5 5 -12"])] = Ok [].
Proof.
  apply (nonpositive_hole_dropped "5 5 -12" (5, 5)%R (-12)%R).
  - exact classify_negative_hole.
  - lra.
Defined.

(** ** Block tokenizer *)

Local Open Scope list_scope.

Lemma tokenize_loop_open (lines : list string) (t : string)
      (cur : list string) :
  t <> "EN" ->
  flat_map block_text (tokenize_loop lines (Some t) cur) =
  t :: cur ++ map as_kept (before_EN lines).
Proof.
  revert t cur. induction lines as [| ln rest IH]; intros t cur Ht.
  - cbn [tokenize_loop tokenize_end before_EN map].
    destruct (String.eqb_spec t "EN"); [contradiction |].
    cbn. now rewrite !app_nil_r.
  - cbn [tokenize_loop before_EN]. unfold is_EN_line, as_kept, is_tag_line.
    destruct (TAG_RE_fullmatch (Str.strip ln)) eqn:Etag; cbn [andb].
    + destruct (String.eqb_spec (Str.strip ln) "EN") as [Een | Een].
      * cbn [tokenize_end]. rewrite Een. cbn. now rewrite !app_nil_r.
      * cbn [flat_map block_text fst snd map app].
        rewrite (IH _ _ Een). unfold as_kept, is_tag_line.
        rewrite Etag. reflexivity.
    + cbn [map]. rewrite (IH _ _ Ht). unfold as_kept, is_tag_line.
      rewrite Etag, <- app_assoc. reflexivity.
Qed.

Lemma tokenize_loop_closed (lines : list string) :
  pre_tag_lines lines ++ flat_map block_text (tokenize_loop lines None []) =
  map as_kept (before_EN lines).
Proof.
  induction lines as [| ln rest IH]; [reflexivity |].
  cbn [tokenize_loop before_EN pre_tag_lines].
  unfold is_EN_line, is_tag_line.
  destruct (TAG_RE_fullmatch (Str.strip ln)) eqn:Etag; cbn [andb app].
  - destruct (String.eqb_spec (Str.strip ln) "EN") as [Een | Een].
    + cbn [tokenize_end]. rewrite Een. reflexivity.
    + rewrite (tokenize_loop_open _ _ _ Een). cbn [map app].
      unfold as_kept, is_tag_line. rewrite Etag. reflexivity.
  - cbn [map]. rewrite <- IH. unfold as_kept, is_tag_line.
    rewrite Etag. reflexivity.
Qed.

(** The lines from "EN" on are not read. *)
Lemma tokenize_loop_before_EN (lines : list string)
      (cur_tag : option string) (cur : list string) :
  cur_tag <> Some "EN" ->
  tokenize_loop lines cur_tag cur = tokenize_loop (before_EN lines) cur_tag cur.
Proof.
  revert cur_tag cur. induction lines as [| ln rest IH]; intros ct cur Hct;
    [reflexivity |].
  cbn [before_EN]. unfold is_EN_line, is_tag_line.
  destruct (TAG_RE_fullmatch (Str.strip ln)) eqn:Etag; cbn [andb].
  - destruct (String.eqb_spec (Str.strip ln) "EN") as [Een | Een].
    + cbn [tokenize_loop]. rewrite Etag, Een. cbn [String.eqb Ascii.eqb Bool.eqb].
      destruct ct as [t |]; cbn [tokenize_end negb String.eqb Ascii.eqb Bool.eqb].
      * destruct (String.eqb_spec t "EN"); [congruence | reflexivity].
      * reflexivity.
    + cbn [tokenize_loop]. rewrite Etag.
      destruct (String.eqb_spec (Str.strip ln) "EN"); [contradiction |].
      destruct ct as [t |]; rewrite IH by congruence; reflexivity.
  - cbn [tokenize_loop]. rewrite Etag.
    destruct ct as [t |]; rewrite IH by congruence; reflexivity.
Qed.

(** C6 as stated fails: the tag line of the input ["AK"; "0 0"] is in no
    block's lines, so the discarded lines followed by the blocks' lines do
    not give the input back, whatever is appended for the lines before
    "EN". *)
Lemma reconstruction_fails :
  ~ exists before_en : list string,
      pre_tag_lines ["AK"; "0 0"]
      ++ List.concat (map snd (tokenize_lines ["AK"; "0 0"])) ++ before_en
      = ["AK"; "0 0"].
Proof.
  intros [tl H].
  change (tokenize_lines ["AK"; "0 0"]) with [("AK", ["0 0"])] in H.
  change (pre_tag_lines ["AK"; "0 0"]) with (@nil string) in H.
  cbn in H. discriminate H.
Qed.

(** C6, amended.  The discarded pre-tag lines, followed by every yielded
    block written as its tag and then its lines, are the input lines that
    precede the "EN" tag line (all input lines when there is none), each tag
    line trimmed; the "EN" line and the lines after it are not read. *)
Theorem tokenizer_reconstruction (lines : list string) :
  pre_tag_lines lines ++ flat_map block_text (tokenize_lines lines) =
  map as_kept (before_EN lines)
  /\ tokenize_lines lines = tokenize_lines (before_EN lines).
Proof.
  split.
  - apply tokenize_loop_closed.
  - apply tokenize_loop_before_EN. discriminate.
Qed.

(** ** Curvature-point extractor *)

Lemma index_fnum_value (ln : string) (i : nat) :
  (i < List.length (findall_FLOAT_RE ln))%nat ->
  (s <- index (findall_FLOAT_RE ln) i ;; fnum s)%py = Ok (number ln i).
Proof.
  intros Hi. rewrite (index_nth _ _ ""%string Hi). cbn [bind].
  rewrite (fnum_token ln) by (now apply nth_In).
  unfold number, numbers.
  rewrite (nth_indep _ 0%R (token_value "")) by (now rewrite length_map).
  now rewrite map_nth.
Qed.

Lemma parse_points_loop_eq (block_lines : list string) (pts : list point) :
  parse_points_loop block_lines pts = Ok (pts ++ points_of_lines block_lines).
Proof.
  revert pts. induction block_lines as [| ln rest IH]; intros pts;
    cbn [parse_points_loop points_of_lines flat_map].
  - now rewrite app_nil_r.
  - unfold point_of_line. rewrite length_numbers.
    destruct (Nat.leb_spec 2 (List.length (findall_FLOAT_RE ln))) as [H2 | H2].
    + rewrite !index_fnum by lia.
      destruct (Nat.leb_spec 3 (List.length (findall_FLOAT_RE ln)))
        as [H3 | H3].
      * rewrite index_fnum_value by lia. cbn [bind].
        rewrite IH, <- app_assoc. reflexivity.
      * cbn [bind]. rewrite IH, <- app_assoc. reflexivity.
    + rewrite IH. reflexivity.
Qed.

Lemma parse_points_k_eq (block_lines : list string) :
  parse_points_k block_lines = Ok (points_of_lines block_lines).
Proof. unfold parse_points_k. now rewrite parse_points_loop_eq. Qed.

(** ** Drawing assembler *)

Lemma bo_lines_loop_eq (lines : list string) (items : list bo_item) :
  bo_lines_loop lines items =
  Ok (items ++ flat_map (fun ln => match classify_either_case ln with
                                   | Some it => [it]
                                   | None => []
                                   end) lines).
Proof.
  revert items. induction lines as [| ln rest IH]; intros items;
    cbn [bo_lines_loop flat_map].
  - now rewrite app_nil_r.
  - rewrite classify_bo_line_eq. cbn [bind]. rewrite IH.
    destruct (classify_either_case ln); cbn [app].
    + now rewrite <- app_assoc.
    + reflexivity.
Qed.

Lemma collect_loop_eq (blocks : list block) (st : collected) :
  collect_loop blocks st = Ok (fold_left collect_block blocks st).
Proof.
  revert st. induction blocks as [| [tag lines] rest IH]; intros st;
    cbn [collect_loop fold_left]; [reflexivity |].
  unfold collect_block.
  destruct (tag =? "AK")%string.
  - rewrite parse_points_k_eq. cbn [bind]. apply IH.
  - destruct (tag =? "IK")%string.
    + rewrite parse_points_k_eq. cbn [bind]. rewrite IH.
      destruct (points_of_lines lines); reflexivity.
    + destruct (tag =? "BO")%string.
      * rewrite bo_lines_loop_eq. cbn [bind]. apply IH.
      * apply IH.
Qed.

Lemma build_xyb_from_points_vertices (pts : list point) :
  build_xyb_from_points pts = Ok (vertices pts).
Proof. apply build_xyb_from_points_eq. Qed.

Lemma vertices_nil : vertices [] = [].
Proof. reflexivity. Qed.

Lemma emit_outer_eq (msp : modelspace) (outer : option (list point)) :
  emit_outer msp outer =
  Ok (msp ++ match outer with
             | Some pts => contour_entities "OUTER" pts
             | None => []
             end).
Proof.
  unfold emit_outer, contour_entities.
  destruct outer as [[| p pts] |].
  - rewrite vertices_nil, app_nil_r. reflexivity.
  - rewrite build_xyb_from_points_vertices. cbn [bind].
    destruct (vertices (p :: pts)); [now rewrite app_nil_r | reflexivity].
  - now rewrite app_nil_r.
Qed.

Lemma emit_inner_eq (msp : modelspace) (contours : list (list point)) :
  emit_inner msp contours =
  Ok (msp ++ flat_map (contour_entities "cutout") contours).
Proof.
  revert msp. induction contours as [| pts rest IH]; intros msp;
    cbn [emit_inner flat_map].
  - now rewrite app_nil_r.
  - rewrite build_xyb_from_points_vertices. cbn [bind]. rewrite IH.
    unfold contour_entities at 2.
    destruct (vertices pts); [reflexivity |].
    unfold add_lwpolyline. now rewrite <- app_assoc.
Qed.

Lemma emit_bo_item_eq (msp : modelspace) (item : bo_item) :
  emit_bo_item msp item = Ok (msp ++ bo_entities item).
Proof.
  destruct item as [c dia | c1 c2 dia].
  - rewrite emit_hole. cbn [bo_entities].
    destruct (Rlt_dec 0 dia); [reflexivity | now rewrite app_nil_r].
  - cbn [emit_bo_item bo_entities].
    destruct (Rlt_dec (distance c1 c2) EPS) as [HL | HL].
    + rewrite (add_slot_capsule_degenerate _ _ _ _ _ HL).
      destruct (Rlt_dec 0 dia); [reflexivity | now rewrite app_nil_r].
    + apply add_slot_capsule_outline. lra.
Qed.

Lemma emit_bo_eq (msp : modelspace) (items : list bo_item) :
  emit_bo msp items = Ok (msp ++ flat_map bo_entities items).
Proof.
  revert msp. induction items as [| it rest IH]; intros msp;
    cbn [emit_bo flat_map].
  - now rewrite app_nil_r.
  - rewrite emit_bo_item_eq. cbn [bind]. rewrite IH.
    now rewrite <- app_assoc.
Qed.

(** The assembler never raises; its drawing is [drawing_of] what it
    collected. *)
Lemma generate_from_blocks_eq (blocks : list block) :
  generate_from_blocks blocks = Ok (drawing_of (collect blocks)).
Proof.
  unfold generate_from_blocks, drawing_of, collect.
  rewrite collect_loop_eq. cbn [bind].
  rewrite emit_outer_eq. cbn [bind app].
  rewrite emit_inner_eq. cbn [bind].
  rewrite emit_bo_eq. now rewrite <- app_assoc.
Qed.

Lemma collected_eq (st1 st2 : collected) :
  outer_pts st1 = outer_pts st2 -> cutouts_of st1 = cutouts_of st2 ->
  st1 = st2.
Proof.
  destruct st1, st2. unfold cutouts_of. cbn. intros -> H.
  now injection H as -> ->.
Qed.

Lemma cutouts_collect_block (st1 st2 : collected) (b : block) :
  cutouts_of st1 = cutouts_of st2 ->
  cutouts_of (collect_block st1 b) = cutouts_of (collect_block st2 b).
Proof.
  unfold cutouts_of. intros H. injection H as Hi Hb.
  destruct b as [tag lines]. unfold collect_block.
  destruct (tag =? "AK")%string; [cbn; congruence |].
  destruct (tag =? "IK")%string.
  - destruct (points_of_lines lines); cbn; congruence.
  - destruct (tag =? "BO")%string; cbn; congruence.
Qed.

Lemma cutouts_collect_AK (st : collected) (b : block) :
  is_AK b = true -> cutouts_of (collect_block st b) = cutouts_of st.
Proof.
  destruct b as [tag lines]. unfold is_AK, collect_block. cbn [fst].
  now intros ->.
Qed.

Lemma outer_collect_not_AK (st : collected) (b : block) :
  is_AK b = false -> outer_pts (collect_block st b) = outer_pts st.
Proof.
  destruct b as [tag lines]. unfold is_AK, collect_block. cbn [fst].
  intros ->. destruct (tag =? "IK")%string.
  - now destruct (points_of_lines lines).
  - now destruct (tag =? "BO")%string.
Qed.

Lemma cutouts_fold_without_AK (blocks : list block) (st1 st2 : collected) :
  cutouts_of st1 = cutouts_of st2 ->
  cutouts_of (fold_left collect_block blocks st1) =
  cutouts_of (fold_left collect_block
                (filter (fun b => negb (is_AK b)) blocks) st2).
Proof.
  revert st1 st2. induction blocks as [| b rest IH]; intros st1 st2 H;
    cbn [fold_left filter]; [exact H |].
  destruct (is_AK b) eqn:Eb; cbn [negb fold_left].
  - apply IH. now rewrite cutouts_collect_AK.
  - apply IH. now apply cutouts_collect_block.
Qed.

Lemma outer_fold_no_AK (blocks : list block) (st : collected) :
  existsb is_AK blocks = false ->
  outer_pts (fold_left collect_block blocks st) = outer_pts st.
Proof.
  revert st. induction blocks as [| b rest IH]; intros st H;
    cbn [fold_left existsb] in *; [reflexivity |].
  apply orb_false_elim in H as [Hb Hrest].
  rewrite (IH _ Hrest). now apply outer_collect_not_AK.
Qed.

(** After an AK block nothing of the blocks before it is left in the outer
    contour, and the earlier AK blocks leave nothing at all. *)
Lemma collect_last_AK (before after : list block) (ls : list string) :
  existsb is_AK after = false ->
  outer_pts (collect (before ++ ("AK", ls) :: after)) =
    Some (points_of_lines ls) /\
  collect (before ++ ("AK", ls) :: after) =
  collect (filter (fun b => negb (is_AK b)) before ++ ("AK", ls) :: after).
Proof.
  intros Hafter. unfold collect. rewrite !fold_left_app. cbn [fold_left].
  split.
  - now rewrite (outer_fold_no_AK _ _ Hafter).
  - f_equal. apply collected_eq; [reflexivity |].
    rewrite !cutouts_collect_AK by reflexivity.
    now apply cutouts_fold_without_AK.
Qed.

Lemma on_layer_app (layer : string) (a b : modelspace) :
  on_layer layer (a ++ b) = on_layer layer a ++ on_layer layer b.
Proof. apply filter_app. Qed.

Lemma on_layer_contour (layer layer' : string) (pts : list point) :
  on_layer layer (contour_entities layer' pts) =
  if (layer' =? layer)%string then contour_entities layer' pts else [].
Proof.
  unfold contour_entities.
  destruct (vertices pts); cbn [on_layer filter entity_layer].
  - now destruct (layer' =? layer)%string.
  - now destruct (layer' =? layer)%string.
Qed.

Lemma on_layer_OUTER_bo (item : bo_item) :
  on_layer "OUTER" (bo_entities item) = [].
Proof.
  destruct item as [c dia | c1 c2 dia]; cbn [bo_entities].
  - now destruct (Rlt_dec 0 dia).
  - destruct (Rlt_dec (distance c1 c2) EPS); [| reflexivity].
    now destruct (Rlt_dec 0 dia).
Qed.

Lemma on_layer_flat_map {A : Type} (layer : string) (f : A -> list entity)
      (xs : list A) :
  (forall x, on_layer layer (f x) = []) ->
  on_layer layer (flat_map f xs) = [].
Proof.
  intros H. induction xs as [| x rest IH]; cbn [flat_map]; [reflexivity |].
  now rewrite on_layer_app, H, IH.
Qed.

Lemma on_layer_OUTER_drawing (st : collected) :
  on_layer "OUTER" (drawing_of st) =
  match outer_pts st with
  | Some pts => contour_entities "OUTER" pts
  | None => []
  end.
Proof.
  unfold drawing_of. rewrite !on_layer_app.
  rewrite (on_layer_flat_map _ (contour_entities "cutout"))
    by (intros pts; now rewrite on_layer_contour).
  rewrite (on_layer_flat_map _ bo_entities) by apply on_layer_OUTER_bo.
  rewrite !app_nil_r.
  destruct (outer_pts st) as [pts |]; [| reflexivity].
  now rewrite on_layer_contour.
Qed.

(** C8.  When the blocks of a text hold an AK block with no AK block after
    it, the drawing is made without an exception, its OUTER layer holds
    what the engine makes of the points of that last AK block and nothing
    else, and the whole drawing is the one the same blocks give with every
    earlier AK block taken out. *)
Theorem last_AK_block_wins (txt : string) (before after : list block)
        (ls : list string) :
  tokenize_blocks txt = before ++ ("AK", ls) :: after ->
  existsb is_AK after = false ->
  exists (pts : list point) (verts : list vertex) (msp : modelspace),
    parse_points_k ls = Ok pts /\
    build_xyb_from_points pts = Ok verts /\
    generate_dxf_from_nc_text txt = Ok msp /\
    on_layer "OUTER" msp =
      match verts with
      | [] => []
      | _ => [LWPolyline "OUTER" verts]
      end /\
    generate_from_blocks
      (filter (fun b => negb (is_AK b)) before ++ ("AK", ls) :: after) =
    Ok msp.
Proof.
  intros Htok Hafter.
  destruct (collect_last_AK before after ls Hafter) as [Houter Hsame].
  exists (points_of_lines ls), (vertices (points_of_lines ls)),
    (drawing_of (collect (before ++ ("AK", ls) :: after))).
  split; [apply parse_points_k_eq |].
  split; [apply build_xyb_from_points_vertices |].
  split; [unfold generate_dxf_from_nc_text; rewrite Htok;
          apply generate_from_blocks_eq |].
  split.
  - rewrite on_layer_OUTER_drawing, Houter. unfold contour_entities.
    destruct (vertices (points_of_lines ls)); reflexivity.
  - rewrite generate_from_blocks_eq, <- Hsame. reflexivity.
Qed.

Lemma last_AK_block_wins_witness :
  exists (pts : list point) (verts : list vertex) (msp : modelspace),
    parse_points_k ["0 0 0"; "10 0 5"; "10 10 0"; "0 10 -5"] = Ok pts /\
    build_xyb_from_points pts = Ok verts /\
    generate_dxf_from_nc_text two_AK_text = Ok msp /\
    on_layer "OUTER" msp =
      match verts with
      | [] => []
      | _ => [LWPolyline "OUTER" verts]
      end /\
    generate_from_blocks
      [("AK", ["0 0 0"; "10 0 5"; "10 10 0"; "0 10 -5"])] = Ok msp.
Proof.
  apply (last_AK_block_wins two_AK_text [("AK", ["0 0"; "5 5"])] []
           ["0 0 0"; "10 0 5"; "10 10 0"; "0 10 -5"]).
  - vm_compute. reflexivity.
  - reflexivity.
Defined.

(** ** The scan of [re.findall] has fuel enough *)

Local Open Scope string_scope.

Lemma span_digits_length (s ds rest : string) :
  span_digits s = (ds, rest) ->
  String.length s = (String.length ds + String.length rest)%nat.
Proof.
  revert ds rest. induction s as [| c t IH]; intros ds rest H; cbn in H.
  - now injection H as <- <-.
  - destruct (Str.isdigit c).
    + destruct (span_digits t) as [ds' rest'] eqn:Et.
      injection H as <- <-. cbn. now rewrite (IH _ _ eq_refl).
    + now injection H as <- <-.
Qed.

Lemma match_fraction_length (s fr rest : string) :
  match_fraction s = (fr, rest) ->
  (String.length rest <= String.length s)%nat.
Proof.
  unfold match_fraction. destruct s as [| c t].
  - now intros [= <- <-].
  - destruct (is_sep c).
    + destruct (span_digits t) as [fs r] eqn:Et.
      pose proof (span_digits_length _ _ _ Et) as Hl.
      destruct fs; intros [= <- <-]; cbn in *; lia.
    + now intros [= <- <-].
Qed.

Lemma match_FLOAT_RE_shorter (s m rest : string) :
  match_FLOAT_RE s = Some (m, rest) ->
  (String.length rest < String.length s)%nat.
Proof.
  unfold match_FLOAT_RE.
  assert (Hgen : forall sign s1,
    (String.length s1 <= String.length s)%nat ->
    match span_digits s1 with
    | (EmptyString, _) => None
    | (String a s0 as ds, s2) =>
        let '(fr, s3) := match_fraction s2 in Some (sign ++ ds ++ fr, s3)
    end = Some (m, rest) ->
    (String.length rest < String.length s)%nat).
  { intros sign s1 Hs1.
    destruct (span_digits s1) as [ds s2] eqn:Eds.
    pose proof (span_digits_length _ _ _ Eds) as Hl.
    destruct ds as [| d0 ds']; [discriminate |].
    destruct (match_fraction s2) as [fr s3] eqn:Efr.
    pose proof (match_fraction_length _ _ _ Efr) as Hf.
    intros [= <- <-]. cbn in Hl. lia. }
  destruct s as [| c t].
  - apply Hgen. lia.
  - destruct (is_sign c); apply Hgen; cbn; lia.
Qed.

Lemma findall_from_fuel (fuel fuel' : nat) (s : string) :
  (String.length s <= fuel)%nat -> (String.length s <= fuel')%nat ->
  findall_from fuel s = findall_from fuel' s.
Proof.
  revert fuel' s. induction fuel as [| fuel IH]; intros fuel' s H H'.
  - destruct s; [| cbn in H; lia]. now destruct fuel'.
  - destruct fuel' as [| fuel'].
    + destruct s; [reflexivity | cbn in H'; lia].
    + cbn [findall_from]. destruct s as [| c t]; [reflexivity |].
      destruct (match_FLOAT_RE (String c t)) as [[m rest] |] eqn:Em.
      * pose proof (match_FLOAT_RE_shorter _ _ _ Em) as Hlt.
        f_equal. apply IH; lia.
      * cbn in H, H'. apply IH; lia.
Qed.

(** Any amount of fuel from the length of the line up gives the same
    tokens: the scan of [findall_FLOAT_RE] ends by reaching the end of the
    line. *)
Lemma findall_FLOAT_RE_fuel (ln : string) (extra : nat) :
  findall_from (String.length ln + extra) ln = findall_FLOAT_RE ln.
Proof. apply findall_from_fuel; lia. Qed.

(* ================================================================== *)
(** * Further properties *)

(** ** Bulge geometry engine *)

Local Open Scope R_scope.
Local Open Scope list_scope.

Lemma clamp_quotient_range (d k : R) :
  0 <= d -> EPS <= Rabs k -> 0 <= clamp (d / (2 * Rabs k)) (-1) 1 <= 1.
Proof.
  intros Hd Hk. pose proof EPS_pos as He.
  assert (Hq : 0 <= d / (2 * Rabs k)).
  { apply Rmult_le_pos; [exact Hd |]. left. apply Rinv_0_lt_compat. lra. }
  unfold clamp. destruct (Rlt_dec _ (-1)); [lra |].
  destruct (Rlt_dec 1 _); lra.
Qed.

Lemma asin_nonneg (x : R) : 0 <= x <= 1 -> 0 <= Ratan.asin x.
Proof.
  intros [[H0 | <-] H1].
  - left. apply asin_pos. lra.
  - rewrite asin_0. lra.
Qed.

Lemma tan_quarter_range (a : R) :
  0 <= a <= PI / 4 -> 0 <= Rtrigo1.tan a <= 1.
Proof.
  intros [H0 H1]. pose proof PI_RGT_0 as Hpi. split.
  - destruct H0 as [H0 | <-]; [| rewrite tan_0; lra].
    left. apply tan_gt_0; lra.
  - destruct H1 as [H1 | ->]; [| rewrite tan_PI4; lra].
    left. rewrite <- tan_PI4. apply tan_increasing; lra.
Qed.

Lemma bulge_spec_bound (p q : R * R) (k : R) : Rabs (bulge_spec p q k) <= 1.
Proof.
  unfold bulge_spec.
  destruct (Rlt_dec (Rabs k) EPS) as [Hk | Hk]; [rewrite Rabs_R0; lra |].
  pose proof (clamp_quotient_range (distance p q) k (distance_nonneg p q)
                ltac:(lra)) as Hc.
  pose proof (asin_nonneg _ Hc) as Ha.
  pose proof (asin_bound (clamp (distance p q / (2 * Rabs k)) (-1) 1))
    as [_ Hu].
  assert (Ht : 0 <= Rtrigo1.tan (included_angle (distance p q) k / 4) <= 1).
  { apply tan_quarter_range. unfold included_angle. lra. }
  destruct (Rlt_dec 0 k).
  - rewrite Rabs_pos_eq; lra.
  - rewrite Rabs_Ropp, Rabs_pos_eq; lra.
Qed.

(** X1.  No vertex the engine makes has a bulge above 1 in absolute
    value: an arc is at most a half turn. *)
Theorem bulge_at_most_half_turn (pts : list point) :
  exists out,
    build_xyb_from_points pts = Ok out /\
    Forall (fun v => Rabs (third v) <= 1) out.
Proof.
  exists (vertices pts). split; [apply build_xyb_from_points_vertices |].
  unfold vertices. destruct (List.length pts <? 2)%nat; [constructor |].
  apply Forall_forall. intros v Hv. apply in_map_iff in Hv as [i [<- _]].
  apply bulge_spec_bound.
Qed.

Lemma bulge_spec_mirror (p q : R * R) (k : R) :
  bulge_spec p q (- k) = - bulge_spec p q k.
Proof.
  unfold bulge_spec, included_angle. rewrite Rabs_Ropp.
  destruct (Rlt_dec (Rabs k) EPS) as [Hk | Hk]; [ring |].
  pose proof EPS_pos as He.
  assert (Hk0 : k <> 0) by (intros ->; rewrite Rabs_R0 in Hk; lra).
  destruct (Rlt_dec 0 (- k)), (Rlt_dec 0 k); try lra; ring.
Qed.

Lemma nth_map_default {A B : Type} (f : A -> B) (l : list A) (i : nat)
      (d : A) (d' : B) :
  d' = f d -> nth i (map f l) d' = f (nth i l d).
Proof. intros ->. apply map_nth. Qed.

Lemma vertex_spec_mirror (pts : list point) (i : nat) :
  vertex_spec (map mirror pts) i = mirror (vertex_spec pts i).
Proof.
  assert (Hd : (0, 0, 0) = mirror (0, 0, 0)).
  { unfold mirror. cbn [fst snd]. f_equal. ring. }
  unfold vertex_spec, point, vertex in *. cbv zeta. rewrite length_map.
  rewrite !(nth_map_default mirror pts _ (0, 0, 0) (0, 0, 0) Hd).
  destruct (nth i pts (0, 0, 0)) as [[x y] k].
  destruct (nth ((i + 1) mod List.length pts) pts (0, 0, 0)) as [[x2 y2] k2].
  unfold mirror, xy, third. cbn [fst snd].
  f_equal. apply (bulge_spec_mirror (x, y) (x2, y2) k).
Qed.

(** X2.  Negating every curvature of a contour negates every bulge and
    changes nothing else. *)
Theorem mirrored_contour (pts : list point) :
  exists out,
    build_xyb_from_points pts = Ok out /\
    build_xyb_from_points (map mirror pts) = Ok (map mirror out).
Proof.
  exists (vertices pts). split; [apply build_xyb_from_points_vertices |].
  rewrite build_xyb_from_points_vertices. f_equal.
  unfold vertices, point, vertex in *. rewrite length_map.
  destruct (List.length pts <? 2)%nat; [reflexivity |].
  rewrite map_map. apply map_ext. intros i. apply vertex_spec_mirror.
Qed.








(** ** Slot synthesizer *)

(** X8.  [add_slot_capsule] of the helper scripts, which divides the
    axis by its length before turning it, draws what the one of [main.py]
    draws, and fails where it fails (nowhere). *)
Theorem helper_slot_agrees (msp : modelspace) (c1 c2 : R * R) (dia : R)
        (layer : string) :
  Pomocnicze.add_slot_capsule msp c1 c2 dia layer =
  add_slot_capsule msp c1 c2 dia layer.
Proof.
  pose proof EPS_pos as He.
  destruct c1 as [x1 y1], c2 as [x2 y2].
  unfold Pomocnicze.add_slot_capsule, add_slot_capsule.
  rewrite div_ok by lra. cbn [bind].
  destruct (Py.lt (Py.hypot (x2 - x1) (y2 - y1)) EPS) eqn:EL; [reflexivity |].
  assert (HL : EPS <= Py.hypot (x2 - x1) (y2 - y1)).
  { unfold Py.lt in EL. destruct (Rlt_dec _ EPS); [discriminate | lra]. }
  rewrite !div_ok by lra. cbn [bind fst snd].
  replace (- ((y2 - y1) / Py.hypot (x2 - x1) (y2 - y1)))
    with (- (y2 - y1) / Py.hypot (x2 - x1) (y2 - y1)) by (field; lra).
  reflexivity.
Qed.

(** X9.  [add_slot_capsule] never raises and never touches what is
    already in the model space: it appends at most one entity, on the
    layer it is given. *)
Theorem add_slot_capsule_appends (msp : modelspace) (c1 c2 : R * R)
        (dia : R) (layer : string) :
  exists added : list entity,
    add_slot_capsule msp c1 c2 dia layer = Ok (msp ++ added) /\
    (List.length added <= 1)%nat /\
    Forall (fun e => entity_layer e = layer) added.
Proof.
  destruct (Rlt_dec (distance c1 c2) EPS) as [HL | HL].
  - rewrite (add_slot_capsule_degenerate _ _ _ _ _ HL).
    destruct (Rlt_dec 0 dia).
    + eexists. split; [reflexivity |]. split; [cbn; lia |].
      repeat constructor.
    + exists []. rewrite app_nil_r. split; [reflexivity |].
      split; [cbn; lia | constructor].
  - rewrite add_slot_capsule_outline by lra.
    eexists. split; [reflexivity |]. split; [cbn; lia |].
    repeat constructor.
Qed.

(** ** Block tokenizer *)

Local Open Scope string_scope.

Lemma tokenize_tags_open (lines : list string) (t : string)
      (cur : list string) :
  t <> "EN" ->
  map fst (tokenize_loop lines (Some t) cur) =
  t :: map Str.strip (filter is_tag_line (before_EN lines)).
Proof.
  revert t cur. induction lines as [| ln rest IH]; intros t cur Ht.
  - cbn [tokenize_loop tokenize_end before_EN filter map].
    destruct (String.eqb_spec t "EN"); [contradiction | reflexivity].
  - cbn [tokenize_loop before_EN]. unfold is_EN_line.
    destruct (is_tag_line ln) eqn:Etag; unfold is_tag_line in Etag;
      rewrite Etag; cbn [andb].
    + destruct (String.eqb_spec (Str.strip ln) "EN") as [Een | Een].
      * cbn [tokenize_end]. rewrite Een. reflexivity.
      * cbn [filter map fst]. unfold is_tag_line at 1. rewrite Etag.
        cbn [map]. now rewrite (IH _ _ Een).
    + cbn [filter]. unfold is_tag_line at 1. rewrite Etag.
      now apply IH.
Qed.

Lemma tokenize_tags_closed (lines cur : list string) :
  map fst (tokenize_loop lines None cur) =
  map Str.strip (filter is_tag_line (before_EN lines)).
Proof.
  induction lines as [| ln rest IH]; [reflexivity |].
  cbn [tokenize_loop before_EN]. unfold is_EN_line.
  destruct (is_tag_line ln) eqn:Etag; unfold is_tag_line in Etag;
    rewrite Etag; cbn [andb].
  - destruct (String.eqb_spec (Str.strip ln) "EN") as [Een | Een].
    + cbn [tokenize_end]. rewrite Een. reflexivity.
    + cbn [filter]. unfold is_tag_line at 1. rewrite Etag. cbn [map].
      now apply tokenize_tags_open.
  - cbn [filter]. unfold is_tag_line at 1. rewrite Etag. exact IH.
Qed.

Lemma before_EN_not_EN (lines : list string) (ln : string) :
  In ln (before_EN lines) -> is_EN_line ln = false.
Proof.
  induction lines as [| l rest IH]; cbn [before_EN]; [intros [] |].
  destruct (is_EN_line l) eqn:El; [intros [] |].
  intros [<- | H]; [exact El | now apply IH].
Qed.

Lemma rstrip_all_space (s : string) :
  Str.all_space s = true -> Str.rstrip s = "".
Proof.
  induction s as [| c t IH]; [reflexivity |].
  cbn. intros H. apply andb_prop in H as [Hc Ht].
  now rewrite (IH Ht), Hc.
Qed.

Lemma rstrip_idem (s : string) : Str.rstrip (Str.rstrip s) = Str.rstrip s.
Proof.
  induction s as [| c t IH]; [reflexivity |].
  cbn [Str.rstrip]. destruct (Str.rstrip t) as [| c' t'] eqn:Et.
  - destruct (Str.isspace c) eqn:Ec; [reflexivity |].
    cbn. now rewrite Ec.
  - cbn [Str.rstrip] in *. now rewrite IH.
Qed.

(** X10.  The tags of the yielded blocks are the trimmed tag lines that
    precede "EN", one block for each, in file order, repeated tags
    included; no block is tagged "EN", and every tag is two capital
    letters. *)
Theorem block_tags (lines : list string) :
  map fst (tokenize_lines lines) =
    map Str.strip (filter is_tag_line (before_EN lines)) /\
  Forall (fun b : block =>
            fst b <> "EN" /\ TAG_RE_fullmatch (fst b) = true /\
            String.length (fst b) = 2%nat)
         (tokenize_lines lines).
Proof.
  pose proof (tokenize_tags_closed lines []) as Htags.
  split; [exact Htags |].
  apply Forall_forall. intros [tag bl] Hb.
  assert (Hin : In tag (map fst (tokenize_lines lines)))
    by (now apply (in_map fst _ (tag, bl))).
  unfold tokenize_lines in Hin. rewrite Htags in Hin.
  apply in_map_iff in Hin as [ln [Hln Hf]].
  apply filter_In in Hf as [Hbefore Htag].
  pose proof (before_EN_not_EN _ _ Hbefore) as Hen.
  unfold is_EN_line in Hen. rewrite Htag in Hen. cbn [andb] in Hen.
  cbn [fst]. subst tag. unfold is_tag_line in Htag.
  split; [now apply String.eqb_neq |].
  split; [exact Htag |].
  assert (Hst : Str.rstrip (Str.strip ln) = Str.strip ln)
    by apply rstrip_idem.
  destruct (Str.strip ln) as [| a [| b' rest]]; try discriminate Htag.
  cbn [TAG_RE_fullmatch] in Htag.
  apply andb_prop in Htag as [_ Hsp].
  cbn [Str.rstrip] in Hst. rewrite (rstrip_all_space _ Hsp) in Hst.
  destruct (Str.isspace b'); destruct (Str.isspace a);
    try discriminate Hst; injection Hst as <-; reflexivity.
Qed.

Lemma tokenize_loop_lines (P : string -> Prop) (lines : list string) :
  (forall ln, In ln lines -> is_tag_line ln = false -> P ln) ->
  forall cur_tag cur,
    Forall P cur ->
    Forall (fun b : block => Forall P (snd b))
           (tokenize_loop lines cur_tag cur).
Proof.
  induction lines as [| ln rest IH]; intros HP ct cur Hcur.
  - cbn [tokenize_loop]. destruct ct as [t |]; cbn [tokenize_end].
    + destruct (negb (t =? "EN")); repeat constructor. exact Hcur.
    + constructor.
  - assert (HP' : forall l, In l rest -> is_tag_line l = false -> P l)
      by (intros l Hl; apply HP; now right).
    cbn [tokenize_loop].
    destruct (TAG_RE_fullmatch (Str.strip ln)) eqn:Etag.
    + destruct ct as [t |].
      * constructor; [exact Hcur |].
        destruct (String.eqb_spec (Str.strip ln) "EN") as [E | E].
        -- cbn [tokenize_end]. rewrite E. cbn. constructor.
        -- apply IH; [exact HP' | constructor].
      * destruct (String.eqb_spec (Str.strip ln) "EN") as [E | E].
        -- cbn [tokenize_end]. rewrite E. cbn. constructor.
        -- apply IH; [exact HP' | exact Hcur].
    + destruct ct as [t |].
      * apply IH; [exact HP' |]. apply Forall_app. split; [exact Hcur |].
        repeat constructor. apply HP; [now left | exact Etag].
      * apply IH; [exact HP' | exact Hcur].
Qed.

(** X11.  Every line of a yielded block is a line of the input and is
    not a tag line: a tag line always closes the block before it. *)
Theorem block_lines_are_data (lines : list string) :
  Forall (fun b : block =>
            Forall (fun ln => In ln lines /\
                              TAG_RE_fullmatch (Str.strip ln) = false)
                   (snd b))
         (tokenize_lines lines).
Proof.
  apply tokenize_loop_lines; [| constructor].
  intros ln Hin Htag. split; [exact Hin | exact Htag].
Qed.

Lemma tokenize_loop_no_tag (lines cur : list string) :
  Forall (fun ln => is_tag_line ln = false) lines ->
  tokenize_loop lines None cur = [].
Proof.
  induction 1 as [| ln rest Hln _ IH]; [reflexivity |].
  cbn [tokenize_loop]. unfold is_tag_line in Hln. now rewrite Hln.
Qed.

(** X12.  A text none of whose lines is a tag line, the empty text among
    them, yields no block, and its drawing is empty. *)
Theorem untagged_text_is_empty (txt : string) :
  Forall (fun ln => TAG_RE_fullmatch (Str.strip ln) = false)
         (Str.splitlines txt) ->
  tokenize_blocks txt = [] /\ generate_dxf_from_nc_text txt = Ok [].
Proof.
  intros H.
  assert (Ht : tokenize_blocks txt = [])
    by (now apply tokenize_loop_no_tag).
  split; [exact Ht |].
  unfold generate_dxf_from_nc_text. now rewrite Ht.
Qed.

Lemma untagged_text_is_empty_witness :
  tokenize_blocks ("100 50 20" ++ LF ++ "ak" ++ LF ++ "A K" ++ LF) = [] /\
  generate_dxf_from_nc_text ("100 50 20" ++ LF ++ "ak" ++ LF ++ "A K" ++ LF)
  = Ok [].
Proof.
  apply (untagged_text_is_empty ("100 50 20" ++ LF ++ "ak" ++ LF ++ "A K" ++ LF)).
  vm_compute. repeat constructor.
Defined.

(** ** Numeric tokens and the curvature-point extractor *)

Local Open Scope list_scope.

(** X13.  [float] never fails on what [FLOAT_RE] matched: [fnum] returns
    a number for every token of every line. *)
Theorem fnum_never_fails_on_tokens (ln tok : string) :
  In tok (findall_FLOAT_RE ln) -> exists v : R, fnum tok = Ok v.
Proof.
  intros H. exists (token_value tok). now apply (fnum_token ln).
Qed.

Lemma fnum_never_fails_on_tokens_witness :
  exists v : R, fnum "-12,5" = Ok v.
Proof.
  apply (fnum_never_fails_on_tokens "x=-12,5mm" "-12,5").
  vm_compute. left. reflexivity.
Defined.

Lemma points_of_lines_app (a b : list string) :
  points_of_lines (a ++ b) = points_of_lines a ++ points_of_lines b.
Proof. unfold points_of_lines. apply flat_map_app. Qed.

Lemma length_points_of_lines (lines : list string) :
  (List.length (points_of_lines lines) <= List.length lines)%nat.
Proof.
  induction lines as [| ln rest IH]; [cbn; lia |].
  change (points_of_lines (ln :: rest))
    with (point_of_line ln ++ points_of_lines rest).
  rewrite length_app. unfold point_of_line.
  destruct (2 <=? List.length (numbers ln))%nat; cbn [List.length]; lia.
Qed.

(** X14.  [parse_points_k] never raises, gives at most one point per
    line, and reads the lines one by one: the points of two runs of lines
    put together are the points of the first followed by the points of the
    second. *)
Theorem parse_points_k_app (a b : list string) :
  exists pa pb : list point,
    parse_points_k a = Ok pa /\
    parse_points_k b = Ok pb /\
    parse_points_k (a ++ b) = Ok (pa ++ pb) /\
    (List.length pa <= List.length a)%nat.
Proof.
  exists (points_of_lines a), (points_of_lines b).
  rewrite !parse_points_k_eq, points_of_lines_app.
  repeat split. apply length_points_of_lines.
Qed.

(** X15.  A line with fewer than two numeric tokens (a blank line, a
    comment, a lone number) adds no point, wherever it stands in the
    block. *)
Theorem short_line_skipped (a b : list string) (ln : string) :
  (List.length (findall_FLOAT_RE ln) < 2)%nat ->
  parse_points_k (a ++ ln :: b) = parse_points_k (a ++ b).
Proof.
  intros H. rewrite !parse_points_k_eq. f_equal.
  change (ln :: b) with ([ln] ++ b).
  rewrite !points_of_lines_app. f_equal.
  change (points_of_lines [ln]) with (point_of_line ln ++ []).
  unfold point_of_line. rewrite length_numbers.
  destruct (Nat.leb_spec 2 (List.length (findall_FLOAT_RE ln)));
    [lia | reflexivity].
Qed.

Lemma short_line_skipped_witness :
  parse_points_k (["0 0"] ++ "** v 3" :: ["10 0 5"]) =
  parse_points_k (["0 0"] ++ ["10 0 5"]).
Proof.
  apply (short_line_skipped ["0 0"] ["10 0 5"] "** v 3").
  vm_compute. lia.
Defined.

(** ** Drawing assembler *)

Local Open Scope R_scope.

(** The assembler never raises: whatever the text, every numeric token
    parses, every index is in range and no division is by zero. *)
Lemma generate_never_raises (txt : string) :
  exists msp : modelspace, generate_dxf_from_nc_text txt = Ok msp.
Proof.
  eexists. unfold generate_dxf_from_nc_text. apply generate_from_blocks_eq.
Qed.

Lemma contour_entities_ok (layer : string) (pts : list point) :
  layer = "OUTER"%string \/ layer = "cutout"%string ->
  Forall entity_ok (contour_entities layer pts).
Proof.
  intros Hl. unfold contour_entities.
  destruct (vertices pts) as [| v vs] eqn:Ev; [constructor |].
  constructor; [| constructor]. split; [exact Hl |].
  rewrite <- Ev. unfold vertices.
  destruct (Nat.ltb_spec (List.length pts) 2) as [H | H].
  - unfold vertices in Ev. destruct (Nat.ltb_spec (List.length pts) 2);
      [discriminate Ev | lia].
  - now rewrite length_map, length_seq.
Qed.

Lemma bo_entities_ok (item : bo_item) : Forall entity_ok (bo_entities item).
Proof.
  destruct item as [c dia | c1 c2 dia]; cbn [bo_entities].
  - destruct (Rlt_dec 0 dia); [| constructor].
    constructor; [| constructor]. split; [reflexivity | lra].
  - destruct (Rlt_dec (distance c1 c2) EPS).
    + destruct (Rlt_dec 0 dia); [| constructor].
      constructor; [| constructor]. split; [reflexivity | lra].
    + constructor; [| constructor]. split; [now right | cbn; lia].
Qed.

Lemma Forall_flat_map {A B : Type} (P : B -> Prop) (f : A -> list B)
      (xs : list A) :
  (forall x, Forall P (f x)) -> Forall P (flat_map f xs).
Proof.
  intros H. induction xs as [| x rest IH]; cbn [flat_map]; [constructor |].
  apply Forall_app. split; [apply H | exact IH].
Qed.

Lemma drawing_of_ok (st : collected) : Forall entity_ok (drawing_of st).
Proof.
  unfold drawing_of. repeat (apply Forall_app; split).
  - destruct (outer_pts st); [| constructor].
    apply contour_entities_ok. now left.
  - apply Forall_flat_map. intros pts. apply contour_entities_ok. now right.
  - apply Forall_flat_map. apply bo_entities_ok.
Qed.

Lemma length_contour_entities (layer : string) (pts : list point) :
  (List.length (contour_entities layer pts) <= 1)%nat.
Proof.
  unfold contour_entities. destruct (vertices pts); cbn; lia.
Qed.

(** X16.  In every drawing a circle lies on "cutout" and has a positive
    radius, a polyline lies on "OUTER" or "cutout" and has at least two
    vertices, and "OUTER" holds at most one entity. *)
Theorem drawing_entities_well_formed (txt : string) :
  exists msp : modelspace,
    generate_dxf_from_nc_text txt = Ok msp /\
    Forall entity_ok msp /\
    (List.length (on_layer "OUTER" msp) <= 1)%nat.
Proof.
  eexists. split; [unfold generate_dxf_from_nc_text;
                   apply generate_from_blocks_eq |].
  split; [apply drawing_of_ok |].
  rewrite on_layer_OUTER_drawing.
  destruct (outer_pts _); [apply length_contour_entities | cbn; lia].
Qed.

Lemma outer_fold_no_AK_init (blocks : list block) :
  existsb is_AK blocks = false -> outer_pts (collect blocks) = None.
Proof.
  intros H. unfold collect. now rewrite outer_fold_no_AK.
Qed.

(** X17.  A text without an AK block gives a drawing with nothing on
    "OUTER". *)
Theorem no_AK_no_outer (txt : string) :
  existsb is_AK (tokenize_blocks txt) = false ->
  exists msp : modelspace,
    generate_dxf_from_nc_text txt = Ok msp /\ on_layer "OUTER" msp = [].
Proof.
  intros H. eexists.
  split; [unfold generate_dxf_from_nc_text; apply generate_from_blocks_eq |].
  rewrite on_layer_OUTER_drawing. now rewrite (outer_fold_no_AK_init _ H).
Qed.

Lemma no_AK_no_outer_witness :
  exists msp : modelspace,
    generate_dxf_from_nc_text
      ("BO" ++ LF ++ "5 5 12" ++ LF ++ "EN" ++ LF)%string = Ok msp /\
    on_layer "OUTER" msp = [].
Proof.
  apply (no_AK_no_outer ("BO" ++ LF ++ "5 5 12" ++ LF ++ "EN" ++ LF)%string).
  vm_compute. reflexivity.
Defined.

Lemma collect_block_other (st : collected) (tag : string)
      (lines : list string) :
  tag <> "AK"%string -> tag <> "IK"%string -> tag <> "BO"%string ->
  collect_block st (tag, lines) = st.
Proof.
  intros H1 H2 H3. unfold collect_block.
  destruct (String.eqb_spec tag "AK"); [contradiction |].
  destruct (String.eqb_spec tag "IK"); [contradiction |].
  destruct (String.eqb_spec tag "BO"); [contradiction | reflexivity].
Qed.

(** X18.  A block whose tag is none of AK, IK and BO (the header ST, the
    markings SI, ...) leaves no trace in the drawing. *)
Theorem other_blocks_ignored (a b : list block) (tag : string)
        (lines : list string) :
  tag <> "AK"%string -> tag <> "IK"%string -> tag <> "BO"%string ->
  generate_from_blocks (a ++ (tag, lines) :: b) = generate_from_blocks (a ++ b).
Proof.
  intros H1 H2 H3. rewrite !generate_from_blocks_eq. f_equal. f_equal.
  unfold collect. rewrite !fold_left_app. cbn [fold_left].
  now rewrite collect_block_other.
Qed.

Lemma other_blocks_ignored_witness :
  generate_from_blocks
    ([("ST", ["** part"; "1"; "6"])] ++ ("SI", ["10 10 0 5 P1"])
       :: [("BO", ["5 5 12"])]) =
  generate_from_blocks
    ([("ST", ["** part"; "1"; "6"])] ++ [("BO", ["5 5 12"])]).
Proof.
  apply (other_blocks_ignored [("ST", ["** part"; "1"; "6"])]
           [("BO", ["5 5 12"])] "SI" ["10 10 0 5 P1"]);
    discriminate.
Defined.

Lemma collect_block_swap (st : collected) (t1 t2 : string)
      (l1 l2 : list string) :
  t1 <> t2 ->
  collect_block (collect_block st (t1, l1)) (t2, l2) =
  collect_block (collect_block st (t2, l2)) (t1, l1).
Proof.
  intros Hne. unfold collect_block.
  destruct (String.eqb_spec t1 "AK"), (String.eqb_spec t2 "AK");
    try congruence;
  destruct (String.eqb_spec t1 "IK"), (String.eqb_spec t2 "IK");
    try congruence;
  destruct (String.eqb_spec t1 "BO"), (String.eqb_spec t2 "BO");
    try congruence;
  destruct st as [o i bo]; cbn [outer_pts inner_contours bo_items];
  try reflexivity;
  try (destruct (points_of_lines l1); reflexivity);
  try (destruct (points_of_lines l2); reflexivity).
Qed.

(** X19.  Only the order of the blocks of one kind matters: two
    neighbouring blocks with different tags can change places without
    changing the drawing.  So the IK contours come before the bores
    even when a BO block precedes them in the file. *)
Theorem blocks_of_different_kinds_commute (a b : list block)
        (t1 t2 : string) (l1 l2 : list string) :
  t1 <> t2 ->
  generate_from_blocks (a ++ (t1, l1) :: (t2, l2) :: b) =
  generate_from_blocks (a ++ (t2, l2) :: (t1, l1) :: b).
Proof.
  intros Hne. rewrite !generate_from_blocks_eq. f_equal. f_equal.
  unfold collect. rewrite !fold_left_app. cbn [fold_left].
  now rewrite collect_block_swap.
Qed.

Lemma blocks_of_different_kinds_commute_witness :
  generate_from_blocks
    ([] ++ ("BO", ["5 5 12"]) :: ("IK", ["0 0"; "4 0"; "4 4"]) :: []) =
  generate_from_blocks
    ([] ++ ("IK", ["0 0"; "4 0"; "4 4"]) :: ("BO", ["5 5 12"]) :: []).
Proof.
  apply (blocks_of_different_kinds_commute [] [] "BO" "IK"
           ["5 5 12"] ["0 0"; "4 0"; "4 4"]).
  discriminate.
Defined.

(** X20.  An IK block whose lines hold no point is dropped: it gives no
    empty contour. *)
Theorem empty_IK_block_dropped (a b : list block) (lines : list string) :
  parse_points_k lines = Ok [] ->
  generate_from_blocks (a ++ ("IK"%string, lines) :: b) =
  generate_from_blocks (a ++ b).
Proof.
  intros H. rewrite parse_points_k_eq in H. injection H as H.
  rewrite !generate_from_blocks_eq. f_equal. f_equal.
  unfold collect. rewrite !fold_left_app. cbn [fold_left].
  f_equal. unfold collect_block. cbn [String.eqb Ascii.eqb Bool.eqb].
  now rewrite H.
Qed.

Lemma empty_IK_block_dropped_witness :
  generate_from_blocks
    ([("AK", ["0 0"; "4 0"])] ++ ("IK", ["** none"; "7"]) :: []) =
  generate_from_blocks ([("AK", ["0 0"; "4 0"])] ++ []).
Proof.
  apply (empty_IK_block_dropped [("AK", ["0 0"; "4 0"])] []
           ["** none"; "7"]).
  rewrite parse_points_k_eq. vm_compute. reflexivity.
Defined.

(** ** File names *)

Local Open Scope string_scope.

Lemma sub_forbidden_clean (b : bool) (s : string) :
  no_forbidden (sub_forbidden b s) = true.
Proof.
  revert b. induction s as [| c t IH]; intros b; [reflexivity |].
  cbn [sub_forbidden]. destruct (forbidden c) eqn:Ec.
  - destruct b; [apply IH |]. cbn [no_forbidden]. now rewrite IH.
  - cbn [no_forbidden]. now rewrite Ec, IH.
Qed.

Lemma sub_forbidden_id (s : string) :
  no_forbidden s = true -> sub_forbidden false s = s.
Proof.
  induction s as [| c t IH]; [reflexivity |].
  cbn [no_forbidden sub_forbidden]. intros H. apply andb_prop in H as [Hc Ht].
  apply negb_true_iff in Hc. now rewrite Hc, IH.
Qed.

Lemma no_forbidden_app (a b : string) :
  no_forbidden (a ++ b) = no_forbidden a && no_forbidden b.
Proof.
  induction a as [| c t IH]; [reflexivity |].
  cbn. now rewrite IH, andb_assoc.
Qed.

Lemma sanitize_clean (text : string) : no_forbidden (sanitize text) = true.
Proof.
  unfold sanitize. destruct (text =? ""); [reflexivity |].
  apply sub_forbidden_clean.
Qed.

(** X21.  [sanitize] returns a string without backslash, slash, colon,
    star, question mark, double quote, angle bracket, bar, CR or LF,
    whatever it is given; so does the file name [main] builds, which also
    ends in [.nc1]. *)
Theorem sanitize_removes_forbidden :
  (forall text : string, no_forbidden (sanitize text) = true) /\
  (forall grade thickness name qty : string,
      exists stem : string,
        new_name grade thickness name qty = stem ++ ".nc1" /\
        no_forbidden (new_name grade thickness name qty) = true).
Proof.
  split; [exact sanitize_clean |].
  intros grade thickness name qty. unfold new_name, TARGET_EXT.
  eexists. split; [reflexivity |].
  rewrite no_forbidden_app, sanitize_clean. reflexivity.
Qed.

Lemma sub_forbidden_empty (s : string) :
  sub_forbidden false s = "" -> s = "".
Proof.
  destruct s as [| c t]; [reflexivity |].
  cbn [sub_forbidden]. destruct (forbidden c); discriminate.
Qed.

Lemma forbidden_underscore_space (c : ascii) :
  Str.isspace c = false ->
  Str.isspace (if forbidden c then "_"%char else c) = false.
Proof. intros H. destruct (forbidden c); [reflexivity | exact H]. Qed.

Lemma rstrip_sub_forbidden (b : bool) (s : string) :
  Str.rstrip s = s -> Str.rstrip (sub_forbidden b s) = sub_forbidden b s.
Proof.
  revert b. induction s as [| c t IH]; intros b H; [reflexivity |].
  cbn [Str.rstrip] in H.
  assert (Ht : Str.rstrip t = t /\ (t = "" -> Str.isspace c = false)).
  { destruct (Str.rstrip t) as [| c' t'] eqn:Et.
    - destruct (Str.isspace c); [discriminate H |].
      injection H as <-. split; [exact Et | reflexivity].
    - injection H as <-. split; [reflexivity | discriminate]. }
  destruct Ht as [Ht Hc]. cbn [sub_forbidden].
  destruct (forbidden c) eqn:Ef.
  - destruct b; [now apply IH |].
    cbn [Str.rstrip]. rewrite (IH true Ht).
    destruct (sub_forbidden true t); reflexivity.
  - cbn [Str.rstrip]. rewrite (IH false Ht).
    destruct (sub_forbidden false t) eqn:Es; [| reflexivity].
    apply sub_forbidden_empty in Es. now rewrite (Hc Es).
Qed.

Lemma lstrip_rstrip (s : string) :
  Str.lstrip s = s -> Str.lstrip (Str.rstrip s) = Str.rstrip s.
Proof.
  destruct s as [| c t]; [reflexivity |].
  cbn [Str.lstrip]. destruct (Str.isspace c) eqn:Ec.
  - intros H. exfalso.
    assert (Hl : forall u, (String.length (Str.lstrip u) <= String.length u)%nat).
    { induction u as [| d u' IHu]; [cbn; lia |].
      cbn [Str.lstrip]. destruct (Str.isspace d); cbn in *; lia. }
    pose proof (Hl t) as Hlt. rewrite H in Hlt. cbn in Hlt. lia.
  - intros _. cbn [Str.rstrip]. rewrite Ec.
    destruct (Str.rstrip t); cbn [Str.lstrip]; now rewrite Ec.
Qed.

Lemma lstrip_idem (s : string) : Str.lstrip (Str.lstrip s) = Str.lstrip s.
Proof.
  induction s as [| c t IH]; [reflexivity |].
  cbn [Str.lstrip]. destruct (Str.isspace c) eqn:Ec; [exact IH |].
  cbn [Str.lstrip]. now rewrite Ec.
Qed.

Lemma lstrip_sub_forbidden (s : string) :
  Str.lstrip s = s -> Str.lstrip (sub_forbidden false s) = sub_forbidden false s.
Proof.
  destruct s as [| c t]; [reflexivity |].
  intros H. assert (Ec : Str.isspace c = false).
  { cbn [Str.lstrip] in H. destruct (Str.isspace c) eqn:Ec; [| reflexivity].
    exfalso.
    assert (Hl : forall u, (String.length (Str.lstrip u) <= String.length u)%nat).
    { induction u as [| d u' IHu]; [cbn; lia |].
      cbn [Str.lstrip]. destruct (Str.isspace d); cbn in *; lia. }
    pose proof (Hl t) as Hlt. rewrite H in Hlt. cbn in Hlt. lia. }
  cbn [sub_forbidden]. destruct (forbidden c); cbn [Str.lstrip].
  - reflexivity.
  - now rewrite Ec.
Qed.

Lemma strip_sanitized (text : string) :
  Str.strip (sub_forbidden false (Str.strip text)) =
  sub_forbidden false (Str.strip text).
Proof.
  assert (Hl : Str.lstrip (Str.strip text) = Str.strip text).
  { unfold Str.strip. apply lstrip_rstrip, lstrip_idem. }
  assert (Hr : Str.rstrip (Str.strip text) = Str.strip text).
  { unfold Str.strip. apply rstrip_idem. }
  unfold Str.strip at 1.
  rewrite (lstrip_sub_forbidden _ Hl). now apply rstrip_sub_forbidden.
Qed.

(** X22.  [sanitize] is idempotent wherever its result is not empty; its
    result is empty exactly for a non-empty text of white space only, which
    a second pass turns into "NA". *)
Theorem sanitize_idempotent (text : string) :
  (sanitize text <> "" -> sanitize (sanitize text) = sanitize text) /\
  (sanitize text = "" <-> text <> "" /\ Str.all_space text = true) /\
  (sanitize text = "" -> sanitize (sanitize text) = "NA").
Proof.
  split; [| split].
  - intros Hr.
    assert (E : sanitize text = "NA" \/
                sanitize text = sub_forbidden false (Str.strip text)).
    { unfold sanitize. destruct (text =? ""); [now left | now right]. }
    destruct E as [E | E]; rewrite E in *; [reflexivity |].
    unfold sanitize.
    destruct (String.eqb_spec (sub_forbidden false (Str.strip text)) "")
      as [He | _]; [contradiction |].
    rewrite strip_sanitized. apply sub_forbidden_id, sub_forbidden_clean.
  - unfold sanitize. destruct (String.eqb_spec text "") as [-> | Hne].
    + split; [discriminate | intros [H _]; contradiction].
    + assert (Hs : forall u, Str.strip u = "" <-> Str.all_space u = true).
      { intros u. unfold Str.strip. induction u as [| c t IHu].
        - cbn. tauto.
        - cbn [Str.lstrip Str.all_space].
          destruct (Str.isspace c) eqn:Ec; cbn [andb]; [exact IHu |].
          split; [| discriminate].
          cbn [Str.rstrip]. rewrite Ec.
          destruct (Str.rstrip t); discriminate. }
      split.
      * intros H. apply sub_forbidden_empty in H.
        split; [exact Hne | now apply Hs].
      * intros [_ H]. apply Hs in H. now rewrite H.
  - intros ->. reflexivity.
Qed.

Lemma sanitize_idempotent_witness :
  sanitize (sanitize " S355/J2: 12*3 ") = sanitize " S355/J2: 12*3 ".
Proof.
  apply (proj1 (sanitize_idempotent " S355/J2: 12*3 ")).
  vm_compute. discriminate.
Defined.

(** ** Header fields *)

Local Open Scope list_scope.

Lemma header_loop_inv (P : string -> Prop) (src : list string) :
  (forall ln, In ln src ->
              Str.strip ln <> "" -> String.prefix "**" (Str.strip ln) = false ->
              P (Str.strip ln)) ->
  forall seq,
    Forall P seq -> (List.length seq < 9)%nat ->
    Forall P (header_loop src seq) /\
    (List.length (header_loop src seq) <= 9)%nat.
Proof.
  induction src as [| ln rest IH]; intros HP seq Hseq Hlen.
  - cbn [header_loop]. split; [exact Hseq | lia].
  - assert (HP' : forall l, In l rest -> Str.strip l <> "" ->
                            String.prefix "**" (Str.strip l) = false ->
                            P (Str.strip l))
      by (intros l Hl; apply HP; now right).
    cbn [header_loop]. cbv zeta.
    destruct (String.eqb_spec (Str.strip ln) "") as [He | He]; cbn [orb].
    + now apply IH.
    + destruct (String.prefix "**" (Str.strip ln)) eqn:Ep.
      * now apply IH.
      * assert (Hseq' : Forall P (seq ++ [Str.strip ln])).
        { apply Forall_app. split; [exact Hseq |].
          constructor; [| constructor]. apply HP; [now left | exact He | exact Ep]. }
        assert (Hl' : List.length (seq ++ [Str.strip ln]) = S (List.length seq))
          by (rewrite length_app; cbn; lia).
        destruct (Nat.leb_spec 9 (List.length (seq ++ [Str.strip ln]))).
        -- split; [exact Hseq' | lia].
        -- now apply IH.
Qed.

Lemma in_firstn {A : Type} (n : nat) (l : list A) (x : A) :
  In x (firstn n l) -> In x l.
Proof.
  intros H. rewrite <- (firstn_skipn n l). apply in_or_app. now left.
Qed.

Lemma in_skipn {A : Type} (n : nat) (l : list A) (x : A) :
  In x (skipn n l) -> In x l.
Proof.
  intros H. rewrite <- (firstn_skipn n l). apply in_or_app. now right.
Qed.

Lemma header_window_incl (lines : list string) (ln : string) :
  In ln (header_window lines) -> In ln lines.
Proof.
  unfold header_window. cbv zeta. intros H. apply in_firstn in H.
  destruct (0 <=? _)%Z; [now apply in_skipn in H | exact H].
Qed.

Lemma item_or_empty_cases (P : string -> Prop) (seq : list string) (i : nat) :
  Forall P seq -> item_or_empty seq i = "" \/ P (item_or_empty seq i).
Proof.
  intros H. unfold item_or_empty.
  destruct (Nat.ltb_spec i (List.length seq)) as [Hi | Hi]; [| now left].
  right. rewrite Forall_forall in H. apply H. now apply nth_In.
Qed.

(** X23.  Every header field [parse_header_fields] returns is either
    empty or the trimmed form of a line of the file that is not blank and
    does not start with two stars: a comment line never becomes a field.
    The line is one of the at most 30 lines read after the first ST line,
    or from the start of a file without one. *)
Theorem header_fields_are_data_lines (lines : list string) :
  Forall (fun f => f = "" \/ header_line (header_window lines) f)
         (header_fields (parse_header_fields lines)) /\
  (List.length (header_window lines) <= 30)%nat /\
  (forall ln, In ln (header_window lines) -> In ln lines).
Proof.
  split; [| split].
  - assert (H : Forall (header_line (header_window lines))
                       (header_loop (header_window lines) [])).
    { apply header_loop_inv; [| constructor | cbn; lia].
      intros ln Hin Hne Hp. unfold header_line. eauto. }
    unfold header_fields, parse_header_fields.
    cbn [piece assembly grade qty profile type_code].
    repeat (constructor; [now apply item_or_empty_cases |]). constructor.
  - unfold header_window. cbv zeta. apply firstn_le_length.
  - apply header_window_incl.
Qed.

Lemma first_index_spec (p : string -> bool) (lines : list string) (k : nat) :
  match first_index p lines k with
  | Some i =>
      (k <= i < k + List.length lines)%nat /\
      p (nth (i - k) lines "") = true /\
      forall j, (j < i - k)%nat -> p (nth j lines "") = false
  | None => Forall (fun ln => p ln = false) lines
  end.
Proof.
  revert k. induction lines as [| ln rest IH]; intros k; cbn [first_index].
  - constructor.
  - destruct (p ln) eqn:Ep.
    + rewrite Nat.sub_diag. cbn [List.length nth].
      split; [lia |]. split; [exact Ep |]. intros j Hj. lia.
    + specialize (IH (S k)). destruct (first_index p rest (S k)) as [i |].
      * destruct IH as [Hi [Hp Hlt]]. cbn [List.length].
        split; [lia |].
        replace (i - k)%nat with (S (i - S k)) by lia. cbn [nth].
        split; [exact Hp |].
        intros [| j] Hj; [exact Ep |]. apply Hlt. lia.
      * now constructor.
Qed.

Lemma upper_char_nonempty (c : ascii) : upper_char c <> [].
Proof.
  unfold upper_char. cbv zeta.
  repeat match goal with
         | |- context [if ?b then _ else _] => destruct b
         end; discriminate.
Qed.

Lemma upper_nil (s : string) : upper s = [] -> s = ""%string.
Proof.
  destruct s as [| c t]; [reflexivity |]. cbn [upper]. intros H.
  apply app_eq_nil in H as [H _]. now apply upper_char_nonempty in H.
Qed.

Lemma upper_char_B (c : ascii) (rest : list nat) :
  upper_char c ++ rest = [66]%nat ->
  (c = "B"%char \/ c = "b"%char) /\ rest = [].
Proof.
  destruct c as [b0 b1 b2 b3 b4 b5 b6 b7].
  destruct b0, b1, b2, b3, b4, b5, b6, b7; cbn; intros H;
    try discriminate H; injection H as H;
    (split; [first [now left | now right] | exact H]).
Qed.

Lemma stripped_upper_is_B (ln : string) :
  stripped_upper_is "B" ln = true <->
  Str.strip ln = "B"%string \/ Str.strip ln = "b"%string.
Proof.
  unfold stripped_upper_is.
  destruct (list_eq_dec Nat.eq_dec (upper (Str.strip ln)) (codes "B"))
    as [E | E].
  - split; [intros _ | reflexivity].
    destruct (Str.strip ln) as [| c t]; [discriminate E |].
    cbn [upper] in E. apply upper_char_B in E as [Hc Ht].
    apply upper_nil in Ht. subst t. destruct Hc as [-> | ->]; auto.
  - split; [discriminate |]. intros [H | H]; rewrite H in E; now elim E.
Qed.

(** X24.  The index [parse_header_fields] returns for the B block is -1
    exactly when no line, trimmed, is the letter B in either case;
    otherwise it is the index of the first such line. *)
Theorem b_idx_is_first_B_line (lines : list string) :
  let b := b_idx (parse_header_fields lines) in
  (b = (-1)%Z /\
   Forall (fun ln => Str.strip ln <> "B"%string /\
                     Str.strip ln <> "b"%string) lines)
  \/
  (exists i : nat,
      b = Z.of_nat i /\ (i < List.length lines)%nat /\
      (Str.strip (nth i lines "") = "B"%string \/
       Str.strip (nth i lines "") = "b"%string) /\
      forall j, (j < i)%nat ->
                Str.strip (nth j lines "") <> "B"%string /\
                Str.strip (nth j lines "") <> "b"%string).
Proof.
  cbv zeta. unfold parse_header_fields. cbn [b_idx].
  unfold index_or_minus_one.
  pose proof (first_index_spec (stripped_upper_is "B") lines 0) as H.
  assert (Hf : forall ln, stripped_upper_is "B" ln = false ->
                          Str.strip ln <> "B"%string /\
                          Str.strip ln <> "b"%string).
  { intros ln Hln. split; intros E;
      assert (Ht : stripped_upper_is "B" ln = true)
        by (apply stripped_upper_is_B; auto); congruence. }
  destruct (first_index (stripped_upper_is "B") lines 0) as [i |].
  - right. exists i. destruct H as [Hi [Hp Hlt]].
    rewrite Nat.sub_0_r in *. split; [reflexivity |]. split; [lia |].
    split; [now apply stripped_upper_is_B |].
    intros j Hj. apply Hf, Hlt. exact Hj.
  - left. split; [reflexivity |].
    eapply Forall_impl; [| exact H]. exact Hf.
Qed.

(** ** Quantity *)

Local Open Scope Z_scope.
Local Open Scope string_scope.

Lemma int_digits_uint (d : Decimal.uint) (acc : Z) (b : bool) :
  int_digits (NilEmpty.string_of_uint d) acc b =
  match d with
  | Decimal.Nil => if b then Some acc else None
  | _ => Some (uint_value d acc)
  end.
Proof.
  revert acc b.
  induction d as [| l IH | l IH | l IH | l IH | l IH | l IH | l IH | l IH
                  | l IH | l IH]; intros acc b; [reflexivity | ..];
    cbn [NilEmpty.string_of_uint int_digits uint_value];
    (match goal with
     | |- context [Str.isdigit ?c] => change (Str.isdigit c) with true
     end);
    cbv iota; rewrite IH;
    (match goal with
     | |- context [digit_value ?c] =>
         let v := eval vm_compute in (digit_value c) in
         change (digit_value c) with v
     end);
    destruct l; reflexivity.
Qed.

Lemma uint_value_pos (d : Decimal.uint) (acc : positive) :
  uint_value d (Z.pos acc) = Z.pos (Pos.of_uint_acc d acc).
Proof.
  revert acc.
  induction d as [| l IH | l IH | l IH | l IH | l IH | l IH | l IH | l IH
                  | l IH | l IH]; intros acc; [reflexivity | ..];
    cbn [uint_value Pos.of_uint_acc]; rewrite <- IH; f_equal; lia.
Qed.

Lemma uint_value_zero (d : Decimal.uint) :
  uint_value d 0 = Z.of_N (Pos.of_uint d).
Proof.
  induction d as [| l IH | l IH | l IH | l IH | l IH | l IH | l IH | l IH
                  | l IH | l IH]; [reflexivity | ..];
    cbn [uint_value Pos.of_uint]; try exact IH;
    cbn [Z.mul Z.add Z.of_N]; apply uint_value_pos.
Qed.

Lemma string_of_uint_digits (d : Decimal.uint) :
  all_digits (NilEmpty.string_of_uint d) = true.
Proof.
  induction d as [| l IH | l IH | l IH | l IH | l IH | l IH | l IH | l IH
                  | l IH | l IH]; [reflexivity | ..];
    cbn [NilEmpty.string_of_uint all_digits]; rewrite IH; reflexivity.
Qed.

Lemma isdigit_not_space (c : ascii) :
  Str.isdigit c = true -> Str.isspace c = false.
Proof.
  destruct c as [b0 b1 b2 b3 b4 b5 b6 b7].
  destruct b0, b1, b2, b3, b4, b5, b6, b7; vm_compute; congruence.
Qed.

Lemma strip_digits (s : string) : all_digits s = true -> Str.strip s = s.
Proof.
  intros H. unfold Str.strip.
  assert (Hl : Str.lstrip s = s).
  { destruct s as [| c t]; [reflexivity |]. cbn in *.
    apply andb_prop in H as [Hc _]. now rewrite (isdigit_not_space _ Hc). }
  rewrite Hl. clear Hl.
  induction s as [| c t IH]; [reflexivity |].
  cbn in H. apply andb_prop in H as [Hc Ht].
  cbn [Str.rstrip]. rewrite (IH Ht), (isdigit_not_space _ Hc).
  destruct t; reflexivity.
Qed.

Lemma int_of_str_positive (p : positive) :
  int_of_str (str_of_int (Z.pos p)) = Some (Z.pos p).
Proof.
  unfold str_of_int. cbn [Z.to_int NilZero.string_of_int].
  pose proof (DecimalPos.Unsigned.of_to p) as Hof.
  assert (Hs : NilZero.string_of_uint (Pos.to_uint p) =
               NilEmpty.string_of_uint (Pos.to_uint p)).
  { destruct (Pos.to_uint p); [discriminate Hof | reflexivity ..]. }
  rewrite Hs. unfold int_of_str.
  rewrite (strip_digits _ (string_of_uint_digits _)).
  pose proof (int_digits_uint (Pos.to_uint p) 0 false) as Hd.
  pose proof (string_of_uint_digits (Pos.to_uint p)) as Hall.
  destruct (NilEmpty.string_of_uint (Pos.to_uint p)) as [| c t] eqn:Es.
  - destruct (Pos.to_uint p); [discriminate Hof | discriminate Es ..].
  - cbn [all_digits] in Hall. apply andb_prop in Hall as [Hc _].
    destruct (isdigit_not_sign _ Hc) as [Hm Hp]. rewrite Hm, Hp, Hd.
    destruct (Pos.to_uint p) eqn:Eu; [discriminate Hof | ..];
      rewrite uint_value_zero, Hof; reflexivity.
Qed.

(** X25.  [pick_qty_simple] always returns the decimal form of an
    integer of at least 1, and that form reads back as the same integer:
    the quantity of the text where it is a positive integer, and 1 for
    zero, for a negative number and for a text that is no integer. *)
Theorem quantity_is_positive (qty_str : string) :
  exists q : Z,
    1 <= q /\
    pick_qty_simple qty_str = str_of_int q /\
    int_of_str (pick_qty_simple qty_str) = Some q /\
    q = match int_of_str (Str.strip qty_str) with
        | Some v => Z.max v 1
        | None => 1
        end.
Proof.
  unfold pick_qty_simple.
  destruct (int_of_str (Str.strip qty_str)) as [v |].
  - destruct (Z.gtb_spec v 0) as [Hv | Hv].
    + exists v. split; [lia |]. split; [reflexivity |].
      split; [| lia]. destruct v as [| p | p]; try lia.
      apply int_of_str_positive.
    + exists 1. split; [lia |]. split; [reflexivity |].
      split; [reflexivity | lia].
  - exists 1. repeat split; lia.
Qed.

(** ** Line endings *)

Lemma append_nil_r (s : string) : s ++ "" = s.
Proof. induction s as [| c t IH]; cbn; [reflexivity | now rewrite IH]. Qed.

Lemma append_assoc (a b c : string) : (a ++ b) ++ c = a ++ (b ++ c).
Proof. induction a as [| x t IH]; cbn; [reflexivity | now rewrite IH]. Qed.

Lemma splitlines_from_line (sep : string) (l cur rest : string) :
  sep = LF \/ sep = CRLF ->
  no_linebreak l = true ->
  Str.splitlines_from cur (l ++ sep ++ rest) =
  (cur ++ l) :: Str.splitlines_from "" rest.
Proof.
  intros Hsep. revert cur. induction l as [| c t IH]; intros cur Hl.
  - rewrite append_nil_r. cbn [append].
    destruct Hsep as [-> | ->]; unfold LF, CRLF; cbn [append].
    + cbn [Str.splitlines_from].
      change (Str.is_linebreak "010") with true. cbv iota.
      destruct rest; reflexivity.
    + cbn [Str.splitlines_from].
      change (Str.is_linebreak "013") with true. cbv iota. reflexivity.
  - cbn [no_linebreak] in Hl. apply andb_prop in Hl as [Hc Ht].
    apply negb_true_iff in Hc.
    cbn [append Str.splitlines_from]. rewrite Hc.
    rewrite (IH _ Ht), append_assoc. reflexivity.
Qed.

Lemma splitlines_terminated (sep : string) (lines : list string) :
  sep = LF \/ sep = CRLF ->
  Forall (fun l => no_linebreak l = true) lines ->
  Str.splitlines (terminated sep lines) = lines.
Proof.
  intros Hsep H. unfold Str.splitlines.
  induction H as [| l rest Hl _ IH]; [reflexivity |].
  cbn [terminated]. rewrite (splitlines_from_line sep l "" _ Hsep Hl).
  cbn [append]. now rewrite IH.
Qed.

(** X26.  The tokenizer reads a text with Unix line ends and the same
    text with Windows line ends alike: the blocks are those of the lines
    themselves. *)
Theorem line_endings_alike (lines : list string) :
  Forall (fun l => no_linebreak l = true) lines ->
  tokenize_blocks (terminated LF lines) = tokenize_lines lines /\
  tokenize_blocks (terminated CRLF lines) = tokenize_lines lines.
Proof.
  intros H. unfold tokenize_blocks.
  rewrite !splitlines_terminated by auto. split; reflexivity.
Qed.

Lemma line_endings_alike_witness :
  tokenize_blocks (terminated LF ["AK"; "0 0"; "4 0 2"; "EN"]) =
    tokenize_lines ["AK"; "0 0"; "4 0 2"; "EN"] /\
  tokenize_blocks (terminated CRLF ["AK"; "0 0"; "4 0 2"; "EN"]) =
    tokenize_lines ["AK"; "0 0"; "4 0 2"; "EN"].
Proof.
  apply (line_endings_alike ["AK"; "0 0"; "4 0 2"; "EN"]).
  repeat constructor.
Defined.

(** ** Numeric tokens *)

Lemma span_digits_head (c : ascii) (t : string) :
  Str.isdigit c = true ->
  exists ds rest, span_digits (String c t) = (String c ds, rest).
Proof.
  intros Hc. cbn [span_digits]. rewrite Hc.
  destruct (span_digits t) as [ds rest]. eauto.
Qed.

Lemma match_FLOAT_RE_digit (c : ascii) (t : string) :
  Str.isdigit c = true -> match_FLOAT_RE (String c t) <> None.
Proof.
  intros Hc. unfold match_FLOAT_RE.
  assert (Hs : is_sign c = false).
  { destruct (isdigit_not_sign _ Hc) as [Hm Hp]. unfold is_sign.
    now rewrite Hm, Hp. }
  rewrite Hs.
  destruct (span_digits_head c t Hc) as [ds [rest ->]].
  destruct (match_fraction rest). discriminate.
Qed.

Lemma span_digits_no_digit (s : string) :
  has_digit s = false -> fst (span_digits s) = "".
Proof.
  destruct s as [| c t]; [reflexivity |].
  cbn [has_digit span_digits]. intros H.
  apply orb_false_elim in H as [Hc _]. now rewrite Hc.
Qed.

Lemma match_FLOAT_RE_no_digit (s : string) :
  has_digit s = false -> match_FLOAT_RE s = None.
Proof.
  intros H. unfold match_FLOAT_RE.
  destruct s as [| c t].
  - reflexivity.
  - cbn [has_digit] in H. apply orb_false_elim in H as [Hc Ht].
    destruct (is_sign c).
    + pose proof (span_digits_no_digit t Ht) as E.
      destruct (span_digits t) as [ds r]. cbn [fst] in E. now subst ds.
    + cbn [span_digits]. now rewrite Hc.
Qed.

Lemma findall_from_no_digit (fuel : nat) (s : string) :
  has_digit s = false -> findall_from fuel s = [].
Proof.
  revert s. induction fuel as [| fuel IH]; intros s H; [reflexivity |].
  cbn [findall_from]. destruct s as [| c t]; [reflexivity |].
  rewrite (match_FLOAT_RE_no_digit _ H).
  cbn [has_digit] in H. apply orb_false_elim in H as [_ Ht].
  now apply IH.
Qed.

Lemma findall_from_digit (fuel : nat) (s : string) :
  (String.length s <= fuel)%nat ->
  has_digit s = true -> findall_from fuel s <> [].
Proof.
  revert s. induction fuel as [| fuel IH]; intros s Hlen H.
  - destruct s; [discriminate H | cbn in Hlen; lia].
  - cbn [findall_from]. destruct s as [| c t]; [discriminate H |].
    destruct (match_FLOAT_RE (String c t)) as [[m rest] |] eqn:Em;
      [discriminate |].
    cbn [has_digit] in H. destruct (Str.isdigit c) eqn:Ec.
    + now apply (match_FLOAT_RE_digit c t) in Ec.
    + cbn [orb] in H. apply IH; [cbn in Hlen; lia | exact H].
Qed.

(** X27.  A line yields a numeric token exactly when it holds a decimal
    digit: signs, points and commas alone are never numbers. *)
Theorem tokens_iff_digit (ln : string) :
  findall_FLOAT_RE ln = [] <-> has_digit ln = false.
Proof.
  split.
  - intros H. destruct (has_digit ln) eqn:Ed; [| reflexivity].
    exfalso. revert H. apply findall_from_digit; [lia | exact Ed].
  - apply findall_from_no_digit.
Qed.

(** ** Holes *)

Local Open Scope R_scope.

(** X28.  A BO line classified as a hole with a positive diameter gives
    exactly one circle, on "cutout", centred at the hole and with half the
    diameter as its radius. *)
Theorem positive_hole_is_circle (ln : string) (c : R * R) (dia : R) :
  classify_bo_line ln = Ok (Some (BoCircle c dia)) ->
  0 < dia ->
  generate_from_blocks [("BO"%string, [ln])] =
  Ok [Circle "cutout" c (dia / 2)].
Proof.
  intros Hc Hd. rewrite (generate_single_bo_line _ _ Hc), emit_hole.
  destruct (Rlt_dec 0 dia); [reflexivity | contradiction].
Qed.

Lemma classify_hole_example :
  classify_bo_line "5 5 12" = Ok (Some (BoCircle (5, 5) 12)).
Proof.
  rewrite classify_bo_line_eq.
  unfold classify_either_case, classify_spec, number, numbers.
  change (findall_FLOAT_RE "5 5 12") with ["5"; "5"; "12"]%string.
  change (Str.contains "l"%char "5 5 12" || Str.contains "L"%char "5 5 12")
    with false.
  cbn [andb map List.length Nat.leb nth].
  rewrite (token_value_decimal "5" (false, 5%Z, 1%Z) eq_refl).
  rewrite (token_value_decimal "12" (false, 12%Z, 1%Z) eq_refl).
  unfold decimal_value. repeat (f_equal; try lra).
Qed.

Lemma positive_hole_is_circle_witness :
  generate_from_blocks [("BO"%string, ["5 5 12"%string])] =
  Ok [Circle "cutout" (5, 5) (12 / 2)].
Proof.
  apply (positive_hole_is_circle "5 5 12" (5, 5) 12).
  - exact classify_hole_example.
  - lra.
Defined.

(** ** Instances *)

Local Open Scope string_scope.

Lemma header_fields_are_data_lines_witness :
  In " P1 " ["ST"; "** c"; "1"; "6"; " P1 "].
Proof.
  apply (proj2 (proj2 (header_fields_are_data_lines
                         ["ST"; "** c"; "1"; "6"; " P1 "]))).
  vm_compute. repeat (first [left; reflexivity | right]).
Defined.

Lemma b_idx_is_first_B_line_witness :
  b_idx (parse_header_fields ["ST"; "x"; " b "; "B"]) = 2%Z.
Proof.
  destruct (b_idx_is_first_B_line ["ST"; "x"; " b "; "B"])
    as [[_ Hnone] | [i [Hb [Hi [Hline Hfirst]]]]].
  - exfalso.
    apply Forall_inv_tail, Forall_inv_tail, Forall_inv in Hnone.
    destruct Hnone as [_ Hnone]. apply Hnone. reflexivity.
  - rewrite Hb.
    destruct i as [| [| [| i]]].
    + exfalso. destruct Hline as [H | H]; vm_compute in H; discriminate H.
    + exfalso. destruct Hline as [H | H]; vm_compute in H; discriminate H.
    + reflexivity.
    + exfalso. destruct (Hfirst 2%nat ltac:(lia)) as [_ H2].
      apply H2. reflexivity.
Defined.

Lemma tokens_iff_digit_witness : findall_FLOAT_RE "+-., l" = [].
Proof.
  apply (proj2 (tokens_iff_digit "+-., l")). reflexivity.
Defined.
